(** * Deployment-log parsing and infrastructure tracking of the
      Virtual TestNet GitHub action: a shallow embedding and its properties.

    The development follows [src/foundry-logs.ts] ([parseDeploymentLogs]),
    [src/deployment-info.ts] ([sanitizeFileName], [currentJobFileBasename],
    [readInfraForCurrentJob]) and [src/cleanup.ts] ([persistDeploymentInfo],
    [persistDeployment]).

    JavaScript strings are sequences of UTF-16 code units, so a string is a
    [list N]; numbers that the code prints or compares (chain identifiers, run
    numbers, optimizer runs) are integers and are modelled by [Z]. *)

From Stdlib Require Import List ZArith NArith String Ascii Bool Lia DecimalString.
From Stdlib Require DecimalPos DecimalZ.
Import ListNotations.

Set Implicit Arguments.

(** ** JavaScript strings and the library functions the sources call *)

Module JS.

Definition jsstring := list N.

(** A literal of the source text. *)
Definition lit (s : string) : jsstring :=
  map N_of_ascii (list_ascii_of_string s).

(** [a === b] on strings. *)
Fixpoint str_eqb (a b : jsstring) : bool :=
  match a, b with
  | [], [] => true
  | x :: a', y :: b' => N.eqb x y && str_eqb a' b'
  | _, _ => false
  end.

Definition in_range (lo hi c : N) : bool := (N.leb lo c && N.leb c hi)%bool.

(** ECMAScript LineTerminator: LF, CR, LS, PS. The regular-expression dot
    matches every code unit but these. *)
Definition is_line_terminator (c : N) : bool :=
  (N.eqb c 10 || N.eqb c 13 || N.eqb c 8232 || N.eqb c 8233)%bool.

(** ECMAScript WhiteSpace and LineTerminator: what [String.prototype.trim]
    strips, what [\s] matches and what [parseInt] skips. *)
Definition is_whitespace (c : N) : bool :=
  (in_range 9 13 c || N.eqb c 32 || N.eqb c 160 || N.eqb c 5760
   || in_range 8192 8202 c || N.eqb c 8232 || N.eqb c 8233 || N.eqb c 8239
   || N.eqb c 8287 || N.eqb c 12288 || N.eqb c 65279)%bool.

Definition is_digit (c : N) : bool := in_range 48 57 c.
Definition is_lower (c : N) : bool := in_range 97 122 c.
Definition is_upper (c : N) : bool := in_range 65 90 c.
Definition is_hex (c : N) : bool :=
  (is_digit c || in_range 97 102 c || in_range 65 70 c)%bool.

Fixpoint take_while (p : N -> bool) (s : jsstring) : jsstring :=
  match s with
  | c :: s' => if p c then c :: take_while p s' else []
  | [] => []
  end.

Fixpoint drop_while (p : N -> bool) (s : jsstring) : jsstring :=
  match s with
  | c :: s' => if p c then drop_while p s' else s
  | [] => []
  end.

(** [s.trim()] *)
Definition trim (s : jsstring) : jsstring :=
  rev (drop_while is_whitespace (rev (drop_while is_whitespace s))).

Fixpoint starts_with (pat s : jsstring) : bool :=
  match pat, s with
  | [], _ => true
  | p :: pat', c :: s' => N.eqb p c && starts_with pat' s'
  | _ :: _, [] => false
  end.

(** [s.includes(pat)] *)
Fixpoint includes (s pat : jsstring) : bool :=
  starts_with pat s ||
  match s with
  | [] => false
  | _ :: s' => includes s' pat
  end.

(** [s.split(sep)] for a separator of one code unit; the result is never
    the empty array. *)
Fixpoint split (sep : N) (s : jsstring) : list jsstring :=
  match s with
  | [] => [[]]
  | c :: s' =>
      if N.eqb c sep then [] :: split sep s'
      else match split sep s' with
           | h :: t => (c :: h) :: t
           | [] => [[c]]
           end
  end.

(** [xs.join(sep)], used to write multi-line inputs down. *)
Fixpoint join (sep : jsstring) (xs : list jsstring) : jsstring :=
  match xs with
  | [] => []
  | [x] => x
  | x :: xs' => x ++ sep ++ join sep xs'
  end.

(** [xs.indexOf(x)]: the index of the first element strictly equal to [x],
    [-1] when there is none. *)
Fixpoint indexOf (xs : list jsstring) (x : jsstring) : Z :=
  match xs with
  | [] => (-1)%Z
  | y :: ys =>
      if str_eqb y x then 0%Z
      else let r := indexOf ys x in
           if (r <? 0)%Z then (-1)%Z else (r + 1)%Z
  end.

(** [xs[i]]: [None] is [undefined]. *)
Definition array_get (A : Type) (xs : list A) (i : Z) : option A :=
  if (i <? 0)%Z then None else nth_error xs (Z.to_nat i).

(** [xs.push(x)] as a function of the array. *)
Definition push (A : Type) (xs : list A) (x : A) : list A := xs ++ [x].

(** [n.toString()] of an integer [n] (below 1e21 in magnitude, where
    JavaScript prints no exponent): the decimal digits, a minus sign first
    for a negative number. *)
Definition Number_toString (n : Z) : jsstring :=
  lit (NilZero.string_of_int (Z.to_int n)).

(** *** Regular expressions

    [String.prototype.match] with a non-global expression returns the
    leftmost match: the expression is tried at position 0, then 1, and so on.
    Each expression of the sources is embedded by its attempt at one position;
    [regex_search] walks the positions. The result is capture group 1. *)
Fixpoint regex_search (A : Type) (attempt : jsstring -> option A)
    (s : jsstring) : option A :=
  match attempt s with
  | Some r => Some r
  | None => match s with
            | [] => None
            | _ :: s' => regex_search attempt s'
            end
  end.

Definition strip_prefix (pat s : jsstring) : option jsstring :=
  if starts_with pat s then Some (skipn (List.length pat) s) else None.

(** [/`(0x[a-fA-F0-9]+)`/]: the hexadecimal digits are matched greedily and
    the next code unit must be the closing backtick (giving digits back never
    helps: a digit is not a backtick). *)
Definition address_at (s : jsstring) : option jsstring :=
  match strip_prefix (lit "`0x") s with
  | Some rest =>
      match take_while is_hex rest, drop_while is_hex rest with
      | (_ :: _) as h, 96%N :: _ => Some (lit "0x" ++ h)
      | _, _ => None
      end
  | None => None
  end.

(** [/deployed on (\d+)/] *)
Definition chain_at (s : jsstring) : option jsstring :=
  match strip_prefix (lit "deployed on ") s with
  | Some rest =>
      match take_while is_digit rest with
      | (_ :: _) as d => Some d
      | [] => None
      end
  | None => None
  end.

(** The lazy [(.*?)\]] after an opening bracket: stop at the first closing
    bracket, fail on a line terminator (the dot does not match it) or at the
    end of the string. *)
Fixpoint lazy_until_bracket (s : jsstring) : option jsstring :=
  match s with
  | [] => None
  | c :: s' =>
      if N.eqb c 93 then Some []
      else if is_line_terminator c then None
      else option_map (cons c) (lazy_until_bracket s')
  end.

(** [/\[(.*?)\]/] *)
Definition bracket_at (s : jsstring) : option jsstring :=
  match s with
  | 91%N :: rest => lazy_until_bracket rest
  | _ => None
  end.

(** The greedy [.*`] inside a run of code units the dot matches: the longest
    prefix that is followed by a backtick. *)
Fixpoint greedy_until_backtick (run : jsstring) : option jsstring :=
  match run with
  | [] => None
  | c :: run' =>
      match greedy_until_backtick run' with
      | Some p => Some (c :: p)
      | None => if N.eqb c 96 then Some [] else None
      end
  end.

(** [/Response: `(.+)`/]: at least one code unit, then as many as possible
    up to the last backtick of the run. *)
Definition response_at (s : jsstring) : option jsstring :=
  match strip_prefix (lit "Response: `") s with
  | Some rest =>
      match take_while (fun c => negb (is_line_terminator c)) rest with
      | c :: run => option_map (cons c) (greedy_until_backtick run)
      | [] => None
      end
  | None => None
  end.

(** *** parseInt

    [parseInt(x)] without a radix: the argument is converted to a string
    ([undefined] becomes the text "undefined"), leading white space is
    skipped, a sign is read, a [0x]/[0X] prefix selects radix 16, and the
    longest prefix of digits is the value; [None] is [NaN]. The value is the
    mathematical integer (JavaScript rounds it to a double beyond 2^53). *)
Definition digit_value (radix : Z) (c : N) : option Z :=
  let v := if is_digit c then Some (Z.of_N c - 48)%Z
           else if is_lower c then Some (Z.of_N c - 87)%Z
           else if is_upper c then Some (Z.of_N c - 55)%Z
           else None in
  match v with
  | Some d => if (d <? radix)%Z then Some d else None
  | None => None
  end.

Fixpoint parse_digits (radix acc : Z) (seen : bool) (s : jsstring) : option Z :=
  match s with
  | c :: s' =>
      match digit_value radix c with
      | Some d => parse_digits radix (acc * radix + d)%Z true s'
      | None => if seen then Some acc else None
      end
  | [] => if seen then Some acc else None
  end.

Definition parseInt (x : option jsstring) : option Z :=
  let s := match x with Some s => s | None => lit "undefined" end in
  let s := drop_while is_whitespace s in
  let '(sign, s) := match s with
                    | 45%N :: r => ((-1)%Z, r)
                    | 43%N :: r => (1%Z, r)
                    | _ => (1%Z, s)
                    end in
  let '(radix, s) := match s with
                     | 48%N :: 120%N :: r => (16%Z, r)
                     | 48%N :: 88%N :: r => (16%Z, r)
                     | _ => (10%Z, s)
                     end in
  option_map (Z.mul sign) (parse_digits radix 0 false s).

(** [x || null] for a number: [NaN] and zero are falsy. *)
Definition number_or_null (x : option Z) : option Z :=
  match x with
  | Some z => if (z =? 0)%Z then None else Some z
  | None => None
  end.

(** [x || d] for a string or [undefined]: [undefined] and the empty string
    are falsy. *)
Definition string_or (A : Type) (x : option jsstring) (d : A)
    (inj : jsstring -> A) : A :=
  match x with
  | Some ((_ :: _) as s) => inj s
  | _ => d
  end.

(** [s.toLowerCase()] on the ASCII letters; other code units are left as they
    are. [sanitizeFileName] lower-cases only what its last replacement kept,
    which is ASCII. *)
Definition lower_unit (c : N) : N := if is_upper c then (c + 32)%N else c.
Definition toLowerCase (s : jsstring) : jsstring := map lower_unit s.

(** [path.extname(name)] of a name without a path separator (a directory
    entry): from the last dot to the end, and empty when there is no dot,
    when the last dot is the first character, or when the name is "..". *)
Fixpoint from_last_dot (s : jsstring) : option jsstring :=
  match s with
  | [] => None
  | c :: s' =>
      match from_last_dot s' with
      | Some e => Some e
      | None => if N.eqb c 46 then Some s else None
      end
  end.

Definition path_extname (name : jsstring) : jsstring :=
  match name with
  | [] => []
  | c :: rest =>
      if str_eqb name (lit "..") then []
      else match from_last_dot rest with
           | Some e => e
           | None => []
           end
  end.

(** [path.join(dir, name)] for a directory and an entry name (no
    normalisation is modelled). *)
Definition path_join (dir name : jsstring) : jsstring :=
  dir ++ lit "/" ++ name.

End JS.

Import JS.

(** ** Data model ([src/foundry-logs.ts], [src/deployment-info.ts]) *)

(** The scanner builds a [Partial<Contract>]: every property may be missing.
    The outer [option] says whether the object has the property (this is what
    [Object.keys] counts); the inner one is the [null] or [undefined] the
    property may hold. *)
Record Contract := {
  address : option jsstring;
  chain : option jsstring;
  verificationStatus : option (option jsstring);
  compiler : option (option jsstring);
  optimizations : option (option Z);
  contractPath : option (option jsstring);
  contractName : option (option jsstring)
}.

(** [{}] *)
Definition empty_contract : Contract :=
  {| address := None; chain := None; verificationStatus := None;
     compiler := None; optimizations := None;
     contractPath := None; contractName := None |}.

Definition has (A : Type) (x : option A) : nat :=
  match x with Some _ => 1 | None => 0 end.

(** [Object.keys(c).length] *)
Definition keys_length (c : Contract) : nat :=
  has (address c) + has (chain c) + has (verificationStatus c)
  + has (compiler c) + has (optimizations c)
  + has (contractPath c) + has (contractName c).

Definition set_compiler (c : Contract) (v : option jsstring) : Contract :=
  {| address := address c; chain := chain c;
     verificationStatus := verificationStatus c;
     compiler := Some v; optimizations := optimizations c;
     contractPath := contractPath c; contractName := contractName c |}.

Definition set_optimizations (c : Contract) (v : option Z) : Contract :=
  {| address := address c; chain := chain c;
     verificationStatus := verificationStatus c;
     compiler := compiler c; optimizations := Some v;
     contractPath := contractPath c; contractName := contractName c |}.

Definition set_path_and_name (c : Contract) (p n : option jsstring) : Contract :=
  {| address := address c; chain := chain c;
     verificationStatus := verificationStatus c;
     compiler := compiler c; optimizations := optimizations c;
     contractPath := Some p; contractName := Some n |}.

Definition set_verificationStatus (c : Contract) (v : option jsstring) : Contract :=
  {| address := address c; chain := chain c;
     verificationStatus := Some v;
     compiler := compiler c; optimizations := optimizations c;
     contractPath := contractPath c; contractName := contractName c |}.

(** [NetworkInfo] (the [VirtualTestNet] of a deployment group). *)
Record NetworkInfo := {
  id : jsstring;
  adminRpcUrl : jsstring;
  publicRpcUrl : jsstring;
  networkId : jsstring;
  chainId : Z;
  testnetSlug : jsstring;
  explorerUrl : option jsstring
}.

Record GithubContext := {
  ctx_workflow : jsstring;
  ctx_runId : jsstring;
  ctx_runNumber : jsstring;
  ctx_job : jsstring
}.

(** [InfrastructureInfo]. [networks] is a [Record<string, NetworkInfo>]; the
    list holds its properties in the object's own enumeration order, which is
    the order [Object.values] follows. *)
Record InfrastructureInfo := {
  networks : list (jsstring * NetworkInfo);
  timestamp : jsstring;
  githubContext : GithubContext
}.

Definition Object_values (o : list (jsstring * NetworkInfo)) : list NetworkInfo :=
  map snd o.

Record WorkflowInfo := {
  runNumber : Z;
  workflow : jsstring;
  job : jsstring;
  runId : Z
}.

Record DeploymentGroup := {
  virtualTestNet : NetworkInfo;
  contracts : list Contract
}.

Record ParsedDeployments := {
  pd_workflow : WorkflowInfo;
  deployments : list DeploymentGroup
}.

(** ** The log scanner (the line loop of [parseDeploymentLogs]) *)

Definition START_MARKER := lit "Start verifying contract".
Definition COMPILER_MARKER := lit "Compiler version:".
Definition OPTIMIZATIONS_MARKER := lit "Optimizations:".
Definition SUBMITTING_MARKER := lit "Submitting verification for".
Definition STATUS_MARKER := lit "Contract verification status:".
Definition COLON : N := 58.
Definition NEWLINE : N := 10.

(** The three locals of the loop over one file's lines. *)
Record ScanState := {
  currentContract : Contract;
  scanned : list Contract;
  isInDeploymentSection : bool
}.

(** The locals as declared at the top of the body of the loop over files. *)
Definition initial_state : ScanState :=
  {| currentContract := empty_contract; scanned := [];
     isInDeploymentSection := false |}.

(** [if (Object.keys(currentContract).length > 0) contracts.push(currentContract)] *)
Definition flush (cur : Contract) (cs : list Contract) : list Contract :=
  if Nat.ltb 0 (keys_length cur) then push cs cur else cs.

(** The record a "Start verifying contract" line opens. *)
Definition open_contract (line : jsstring) : Contract :=
  {| address := Some (string_or (regex_search address_at line) [] (fun s => s));
     chain := Some (string_or (regex_search chain_at line) [] (fun s => s));
     verificationStatus := Some None;
     compiler := None; optimizations := None;
     contractPath := None; contractName := None |}.

(** [line.split(':')[1]?.trim()] *)
Definition after_colon (line : jsstring) : option jsstring :=
  option_map trim (nth_error (split COLON line) 1).

(** [lines[lines.indexOf(line) + 1]?.match(/Response: `(.+)`/)?.[1] || null] *)
Definition lookahead_status (lines : list jsstring) (line : jsstring)
    : option jsstring :=
  match array_get lines (indexOf lines line + 1) with
  | Some next => string_or (regex_search response_at next) None (@Some _)
  | None => None
  end.

(** One iteration of [for (const line of lines)]. *)
Definition scan_line (lines : list jsstring) (st : ScanState)
    (line : jsstring) : ScanState :=
  if str_eqb (trim line) (lit "##") then
    {| currentContract := currentContract st; scanned := scanned st;
       isInDeploymentSection := true |}
  else if isInDeploymentSection st then
    let cur := currentContract st in
    if includes line START_MARKER then
      {| currentContract := open_contract line;
         scanned := flush cur (scanned st);
         isInDeploymentSection := true |}
    else
      let cur' :=
        if includes line COMPILER_MARKER then
          set_compiler cur (string_or (after_colon line) None (@Some _))
        else if includes line OPTIMIZATIONS_MARKER then
          set_optimizations cur (number_or_null (parseInt (after_colon line)))
        else if includes line SUBMITTING_MARKER then
          match regex_search bracket_at line with
          | Some inner =>
              let parts := split COLON inner in
              set_path_and_name cur (nth_error parts 0) (nth_error parts 1)
          | None => cur
          end
        else if includes line STATUS_MARKER then
          set_verificationStatus cur (lookahead_status lines line)
        else cur in
      {| currentContract := cur'; scanned := scanned st;
         isInDeploymentSection := true |}
  else st.

(** The line loop and the flush after it: the [contracts] array of one file,
    given its lines. *)
Definition scan_lines (lines : list jsstring) : list Contract :=
  let st := fold_left (scan_line lines) lines initial_state in
  flush (currentContract st) (scanned st).

(** From [content.split('\n')] to the flush. *)
Definition scan_file (content : jsstring) : list Contract :=
  scan_lines (split NEWLINE content).

(** ** The correlator (the loop over [Object.values(infraInfo.networks)]) *)

(** [contract.chain === network.chainId.toString()]; a record without the
    property compares [undefined] with a string. *)
Definition chain_matches (network : NetworkInfo) (contract : Contract) : bool :=
  match chain contract with
  | Some c => str_eqb c (Number_toString (chainId network))
  | None => false
  end.

(** One iteration of the loop over the networks. *)
Definition correlate_network (cs : list Contract)
    (deploymentGroups : list DeploymentGroup) (network : NetworkInfo)
    : list DeploymentGroup :=
  let matchingContracts := filter (chain_matches network) cs in
  if Nat.ltb 0 (List.length matchingContracts) then
    push deploymentGroups
      {| virtualTestNet := network; contracts := matchingContracts |}
  else deploymentGroups.

(** What the body of the loop over files does to [deploymentGroups] once the
    file is read. *)
Definition process_file (infraInfo : InfrastructureInfo) (content : jsstring)
    (deploymentGroups : list DeploymentGroup) : list DeploymentGroup :=
  fold_left (correlate_network (scan_file content))
    (Object_values (networks infraInfo)) deploymentGroups.

(** ** Run identity and the infra store ([src/deployment-info.ts]) *)

(** What a call can throw: a file-system fault, or an [Error] with its
    message. *)
Inductive Exn :=
| FsError (path : jsstring)
| JsError (message : jsstring).

(** A computation that returns or throws. *)
Definition Result (A : Type) : Type := (Exn + A)%type.

Definition bind (A B : Type) (m : Result A) (k : A -> Result B) : Result B :=
  match m with
  | inl e => inl e
  | inr a => k a
  end.

Notation "x <- m ;; k" := (bind m (fun x => k))
  (at level 61, m at next level, right associativity).

(** What the process sees of its surroundings: the GitHub context (the four
    fields of [github.context] that the sources read), the
    workspace variable, the file system (each read or write succeeds or
    faults: [None]), and the decoding of an infra file ([None] when
    [JSON.parse] throws or yields nothing usable). *)
Record World := {
  github_context : WorkflowInfo;
  GITHUB_WORKSPACE : option jsstring;
  fs_readdir : jsstring -> option (list jsstring);
  fs_readFile : jsstring -> option jsstring;
  fs_writeFile : jsstring -> option unit;
  JSON_parse : jsstring -> option InfrastructureInfo
}.

(** An awaited file-system call: its value, or the fault thrown. *)
Definition await_fs (A : Type) (path : jsstring) (r : option A) : Result A :=
  match r with
  | Some a => inr a
  | None => inl (FsError path)
  end.

Definition HYPHEN : N := 45.

(** [.replace(/\//g, '-')] *)
Definition replace_slashes (s : jsstring) : jsstring :=
  map (fun c => if N.eqb c 47 then HYPHEN else c) s.

(** [.replace(/\s+/g, '-')]: every maximal run of white space becomes one
    hyphen; [in_run] says that the previous code unit was white space. *)
Fixpoint replace_whitespace (in_run : bool) (s : jsstring) : jsstring :=
  match s with
  | [] => []
  | c :: s' =>
      if is_whitespace c then
        if in_run then replace_whitespace true s'
        else HYPHEN :: replace_whitespace true s'
      else c :: replace_whitespace false s'
  end.

Definition is_alnum_or_hyphen (c : N) : bool :=
  (is_lower c || is_upper c || is_digit c || N.eqb c HYPHEN)%bool.

(** [.replace(/[^a-zA-Z0-9-]/g, '')] *)
Definition remove_others (s : jsstring) : jsstring :=
  filter is_alnum_or_hyphen s.

Definition sanitizeFileName (name : jsstring) : jsstring :=
  toLowerCase (remove_others (replace_whitespace false (replace_slashes name))).

Definition currentJobFileBasename (ctx : WorkflowInfo) : jsstring :=
  sanitizeFileName
    (Number_toString (runNumber ctx) ++ lit "-" ++ workflow ctx
     ++ lit "-" ++ job ctx).

Definition deploymentsDir (w : World) : jsstring :=
  match GITHUB_WORKSPACE w with
  | Some ((_ :: _) as d) => d
  | _ => []
  end ++ lit "/.tenderly".

Definition tmpBuildOutDir (w : World) : jsstring :=
  path_join (deploymentsDir w) (lit "tmp").
Definition buildOutDir (w : World) : jsstring := deploymentsDir w.
Definition infraDir (w : World) : jsstring :=
  path_join (deploymentsDir w) (lit "infra").

Definition infraFileForCurrentJob (w : World) : jsstring :=
  path_join (infraDir w) (currentJobFileBasename (github_context w) ++ lit ".json").

(** Both [catch] blocks return [null]. *)
Definition readInfraForCurrentJob (w : World) : option InfrastructureInfo :=
  match fs_readFile w (infraFileForCurrentJob w) with
  | Some content => JSON_parse w content
  | None => None
  end.

(** ** [parseDeploymentLogs] ([src/foundry-logs.ts]) *)

Definition NO_INFRA : Exn := JsError (lit "No infrastructure information found").

(** [for (const file of jsonFiles)]: read the file, scan it, correlate. *)
Fixpoint for_files (w : World) (tmpDirPath : jsstring)
    (infraInfo : InfrastructureInfo) (jsonFiles : list jsstring)
    (deploymentGroups : list DeploymentGroup) : Result (list DeploymentGroup) :=
  match jsonFiles with
  | [] => inr deploymentGroups
  | file :: rest =>
      let filePath := path_join tmpDirPath file in
      content <- await_fs filePath (fs_readFile w filePath) ;;
      for_files w tmpDirPath infraInfo rest
        (process_file infraInfo content deploymentGroups)
  end.

Definition is_json (file : jsstring) : bool :=
  str_eqb (path_extname file) (lit ".json").

Definition parseDeploymentLogs (w : World) (tmpDirPath : jsstring)
    : Result ParsedDeployments :=
  files <- await_fs tmpDirPath (fs_readdir w tmpDirPath) ;;
  let jsonFiles := filter is_json files in
  let workflowInfo := github_context w in
  match readInfraForCurrentJob w with
  | None => inl NO_INFRA
  | Some infraInfo =>
      deploymentGroups <- for_files w tmpDirPath infraInfo jsonFiles [] ;;
      inr {| pd_workflow := workflowInfo; deployments := deploymentGroups |}
  end.

(** ** The persister ([src/cleanup.ts]) *)

(** The file-system and logging calls a run of [persistDeploymentInfo]
    makes, in order. A write carries the report it serialises. *)
Inductive Effect :=
| Rm (path : jsstring)
| CoreDebug (report : ParsedDeployments)
| WriteFile (path : jsstring) (report : ParsedDeployments).

Definition deploymentsFile (w : World) : jsstring :=
  buildOutDir w ++ lit "/" ++ currentJobFileBasename (github_context w)
  ++ lit "-deployments.json".

(** [persistDeployment]: one write, which may fault. *)
Definition persistDeployment (w : World) (deploymentLogs : ParsedDeployments)
    : list Effect * Result unit :=
  ([WriteFile (deploymentsFile w) deploymentLogs],
   await_fs (deploymentsFile w) (fs_writeFile w (deploymentsFile w))).

Definition persistDeploymentInfo (w : World) : list Effect * Result unit :=
  match parseDeploymentLogs w (tmpBuildOutDir w) with
  | inl e => ([], inl e)
  | inr deploymentInfo =>
      let trace := [Rm (tmpBuildOutDir w)] in
      if Nat.ltb 0 (List.length (deployments deploymentInfo)) then
        let '(written, r) := persistDeployment w deploymentInfo in
        (trace ++ CoreDebug deploymentInfo :: written, r)
      else (trace, inr tt)
  end.

Definition is_write (e : Effect) : bool :=
  match e with
  | WriteFile _ _ => true
  | _ => false
  end.

(** ** Notions the statements use *)

(** The grouping in the words of the specification: walk the environments in
    order and emit, for each one with a non-empty selection, one group
    holding the selection. *)
Definition correlate_spec (records : list Contract)
    (environments : list NetworkInfo) : list DeploymentGroup :=
  flat_map
    (fun env =>
       match filter (chain_matches env) records with
       | [] => []
       | selection => [{| virtualTestNet := env; contracts := selection |}]
       end)
    environments.

(** The lines that set a property of the current record. *)
Definition is_field_line (line : jsstring) : bool :=
  (includes line COMPILER_MARKER || includes line OPTIMIZATIONS_MARKER
   || includes line SUBMITTING_MARKER || includes line STATUS_MARKER)%bool.

(** The code units a run key is made of. *)
Definition is_key_unit (c : N) : bool :=
  (is_lower c || is_digit c || N.eqb c HYPHEN)%bool.

Unset Implicit Arguments.

(** ** Run numbers in file names ([extractRunNumber], [src/foundry-logs.ts]) *)

(** [/^(\d+)-/]: anchored at the start of the name; the digits are matched
    greedily and the next code unit must be the hyphen. *)
Definition run_number_at (filename : jsstring) : option jsstring :=
  match take_while is_digit filename, drop_while is_digit filename with
  | (_ :: _) as d, c :: _ => if N.eqb c HYPHEN then Some d else None
  | _, _ => None
  end.

(** [parseInt(x, 10)]: as [parseInt] with the radix fixed, so no [0x]
    prefix is looked for. *)
Definition parseInt_radix10 (x : jsstring) : option Z :=
  let s := drop_while is_whitespace x in
  let '(sign, s) := match s with
                    | 45%N :: r => ((-1)%Z, r)
                    | 43%N :: r => (1%Z, r)
                    | _ => (1%Z, s)
                    end in
  option_map (Z.mul sign) (parse_digits 10 0 false s).

(** The returned number is [None] when it is [NaN]. *)
Definition extractRunNumber (filename : jsstring) : Result (option Z) :=
  match run_number_at filename with
  | Some digits => inr (parseInt_radix10 digits)
  | None =>
      inl (JsError (lit "Unable to extract run number from filename: " ++ filename))
  end.

(** ** Slugs ([generateSlug] in [src/index.ts], [uniqueTestNetSlug] in
       [src/tenderly.ts]) *)

(** [.replace(/[^a-z0-9-]/g, '')] *)
Definition remove_non_slug (s : jsstring) : jsstring := filter is_key_unit s.

Section Slugs.

(** Both functions lower-case their input first, whatever it holds; the
    Unicode case mapping of [String.prototype.toLowerCase] is a parameter. *)
Variable String_toLowerCase : jsstring -> jsstring.

Definition generateSlug (ctx : WorkflowInfo) (testnetName networkId : jsstring)
    : jsstring :=
  let template :=
    Number_toString (runNumber ctx) ++ lit "-" ++ testnetName ++ lit "-net-"
    ++ networkId ++ lit "-" ++ workflow ctx ++ lit "-" ++ job ctx ++ lit "-"
    ++ Number_toString (runId ctx) in
  remove_non_slug
    (replace_slashes
       (replace_whitespace false (trim (String_toLowerCase template)))).

(** [now] is [Date.now()], in milliseconds. *)
Definition uniqueTestNetSlug (now : Z) (testnetName : jsstring) : jsstring :=
  let timestamp := (now / 1000)%Z in
  remove_non_slug
    (replace_whitespace false (trim (String_toLowerCase testnetName)))
  ++ lit "-" ++ Number_toString timestamp.

End Slugs.

(** [buildSlug] *)
Definition buildSlug (ctx : WorkflowInfo) : jsstring :=
  Number_toString (runNumber ctx) ++ lit "-" ++ Number_toString (runId ctx).

(** The chain identifier [run] gives a network:
    [parseInt(chainIdPrefix + networkId)]; [None] is [NaN]. *)
Definition run_chainId (chainIdPrefix networkId : jsstring) : option Z :=
  parseInt (Some (chainIdPrefix ++ networkId)).

(** ** Input validation ([validateInputs], [src/index.ts]) *)

Module Inputs.

(** A property value of the inputs object. *)
Inductive Value :=
| VUndefined
| VString (s : jsstring)
| VBoolean (b : bool)
| VNumber (n : option Z).

(** [TestNetInputs] of [src/types.ts]. *)
Record TestNetInputs := {
  accessKey : jsstring;
  projectName : jsstring;
  accountName : jsstring;
  testnetName : jsstring;
  networkId : jsstring;
  chainId : option Z;
  blockNumber : jsstring;
  stateSync : bool;
  publicExplorer : bool;
  verificationVisibility : jsstring;
  testnetSlug : option jsstring
}.

(** [inputs[key]] *)
Definition get (inputs : TestNetInputs) (key : jsstring) : Value :=
  if str_eqb key (lit "accessKey") then VString (accessKey inputs)
  else if str_eqb key (lit "projectName") then VString (projectName inputs)
  else if str_eqb key (lit "accountName") then VString (accountName inputs)
  else if str_eqb key (lit "testnetName") then VString (testnetName inputs)
  else if str_eqb key (lit "networkId") then VString (networkId inputs)
  else if str_eqb key (lit "chainId") then VNumber (chainId inputs)
  else if str_eqb key (lit "blockNumber") then VString (blockNumber inputs)
  else if str_eqb key (lit "stateSync") then VBoolean (stateSync inputs)
  else if str_eqb key (lit "publicExplorer") then VBoolean (publicExplorer inputs)
  else if str_eqb key (lit "verificationVisibility")
       then VString (verificationVisibility inputs)
  else if str_eqb key (lit "testnetSlug")
       then match testnetSlug inputs with Some s => VString s | None => VUndefined end
  else VUndefined.

(** Truthiness of a value. *)
Definition truthy (v : Value) : bool :=
  match v with
  | VUndefined => false
  | VString s => match s with [] => false | _ => true end
  | VBoolean b => b
  | VNumber (Some z) => negb (z =? 0)%Z
  | VNumber None => false
  end.

(** [String(v)] *)
Definition to_String (v : Value) : jsstring :=
  match v with
  | VUndefined => lit "undefined"
  | VString s => s
  | VBoolean true => lit "true"
  | VBoolean false => lit "false"
  | VNumber (Some z) => Number_toString z
  | VNumber None => lit "NaN"
  end.

(** The rules of one input; a rule that the object literal does not have
    is [false] or [None]. *)
Record Rules := {
  required : bool;
  isNumeric : bool;
  isBoolean : bool;
  isOneOf : option (list jsstring)
}.

Definition rule (req : bool) : Rules :=
  {| required := req; isNumeric := false; isBoolean := false; isOneOf := None |}.

(** [requiredInputs], in the order [Object.entries] lists it. *)
Definition requiredInputs : list (jsstring * Rules) :=
  [ (lit "accessKey", rule true);
    (lit "projectName", rule true);
    (lit "accountName", rule true);
    (lit "testnetName", rule true);
    (lit "networkId",
     {| required := true; isNumeric := true; isBoolean := false; isOneOf := None |});
    (lit "blockNumber", rule true);
    (lit "publicExplorer",
     {| required := false; isNumeric := false; isBoolean := true; isOneOf := None |});
    (lit "verificationVisibility",
     {| required := false; isNumeric := false; isBoolean := false;
        isOneOf := Some [lit "bytecode"; lit "abi"; lit "src"] |}) ].

Definition is_boolean (v : Value) : bool :=
  match v with VBoolean _ => true | _ => false end.

Definition is_undefined (v : Value) : bool :=
  match v with VUndefined => true | _ => false end.

(** [options.includes(v)]: strict equality with a string of the list. *)
Definition one_of (options : list jsstring) (v : Value) : bool :=
  match v with
  | VString s => existsb (str_eqb s) options
  | _ => false
  end.

Definition is_NaN (x : option Z) : bool :=
  match x with None => true | Some _ => false end.

Definition throw_input (key text : jsstring) : Result unit :=
  inl (JsError (lit "Input '" ++ key ++ lit "' " ++ text)).

(** The body of the [forEach] callback: four tests in a row. *)
Definition check (inputs : TestNetInputs) (entry : jsstring * Rules) : Result unit :=
  let '(key, rules) := entry in
  let value := get inputs key in
  _ <- (if (required rules
            && (negb (truthy value)
                || match trim (to_String value) with [] => true | _ => false end))%bool
        then throw_input key (lit "is required") else inr tt) ;;
  _ <- (if (isNumeric rules && truthy value
            && is_NaN (parseInt (Some (to_String value))))%bool
        then throw_input key (lit "must be a valid number") else inr tt) ;;
  _ <- (if (isBoolean rules && negb (is_undefined value)
            && negb (is_boolean value))%bool
        then throw_input key (lit "must be a boolean") else inr tt) ;;
  match isOneOf rules with
  | Some options =>
      if (truthy value && negb (one_of options value))%bool
      then throw_input key (lit "must be one of: " ++ join (lit ", ") options)
      else inr tt
  | None => inr tt
  end.

(** [entries.forEach(check)]: the first throw ends the loop. *)
Fixpoint forEach (inputs : TestNetInputs) (entries : list (jsstring * Rules))
    : Result unit :=
  match entries with
  | [] => inr tt
  | entry :: rest => _ <- check inputs entry ;; forEach inputs rest
  end.

Definition validateInputs (inputs : TestNetInputs) : Result bool :=
  _ <- forEach inputs requiredInputs ;; inr true.

End Inputs.

(** ** Storing the infra file, listing the networks
       ([storeInfrastructureInfo] in [src/deployment-info.ts],
        [testnetLinks] in [src/cleanup.ts]) *)

(** The world after a write that succeeded: reading that path gives what was
    written. *)
Definition written (w : World) (path content : jsstring) : World :=
  {| github_context := github_context w;
     GITHUB_WORKSPACE := GITHUB_WORKSPACE w;
     fs_readdir := fs_readdir w;
     fs_readFile := fun p => if str_eqb p path then Some content else fs_readFile w p;
     fs_writeFile := fs_writeFile w;
     JSON_parse := JSON_parse w |}.

Inductive LogEvent :=
| CoreInfo (text : jsstring)
| CoreWarning (text : jsstring) (cause : Exn).

Section Store.

(** [JSON.stringify(infraInfo, null, 2)] is a parameter; [now] is
    [new Date().toISOString()] and [env] holds the four
    [process.env.GITHUB_* || ''] values. *)
Variable JSON_stringify : InfrastructureInfo -> jsstring.

Definition storeInfrastructureInfo (w : World)
    (nets : list (jsstring * NetworkInfo)) (now : jsstring) (env : GithubContext)
    : World * list LogEvent :=
  let infraInfo := {| networks := nets; timestamp := now; githubContext := env |} in
  let infraFile := infraFileForCurrentJob w in
  match await_fs infraFile (fs_writeFile w infraFile) with
  | inr _ =>
      (written w infraFile (JSON_stringify infraInfo),
       [CoreInfo (lit "Infrastructure information stored in " ++ infraFile)])
  | inl e =>
      (w, [CoreWarning (lit "Failed to store infrastructure information: ") e])
  end.

End Store.

(** [Object.values(networks!)] throws a [TypeError] when there is no infra
    file: [networks] is then [undefined]. *)
Definition testnetLinks (w : World) : Result jsstring :=
  match readInfraForCurrentJob w with
  | Some infra =>
      inr (join [NEWLINE]
             (map (fun m => Number_toString (chainId m) ++ lit ": " ++ adminRpcUrl m)
                  (Object_values (networks infra))))
  | None => inl (JsError (lit "Cannot convert undefined or null to object"))
  end.

(** ** Further notions the statements use *)

(** The lines after the first section-marker line. *)
Fixpoint section_lines (lines : list jsstring) : list jsstring :=
  match lines with
  | [] => []
  | l :: rest => if str_eqb (trim l) (lit "##") then rest else section_lines rest
  end.

(** The start lines the scanner meets inside the section. *)
Definition start_lines (lines : list jsstring) : list jsstring :=
  filter (fun l => includes l START_MARKER) (section_lines lines).

(** A record a start line opened: it has an address. *)
Definition is_opened (c : Contract) : bool :=
  match address c with Some _ => true | None => false end.

Definition identity (c : Contract) : option jsstring * option jsstring :=
  (address c, chain c).

(** The code units of a decimal numeral, most significant digit first. *)
Fixpoint uint_units (d : Decimal.uint) : jsstring :=
  match d with
  | Decimal.Nil => []
  | Decimal.D0 d => 48%N :: uint_units d
  | Decimal.D1 d => 49%N :: uint_units d
  | Decimal.D2 d => 50%N :: uint_units d
  | Decimal.D3 d => 51%N :: uint_units d
  | Decimal.D4 d => 52%N :: uint_units d
  | Decimal.D5 d => 53%N :: uint_units d
  | Decimal.D6 d => 54%N :: uint_units d
  | Decimal.D7 d => 55%N :: uint_units d
  | Decimal.D8 d => 56%N :: uint_units d
  | Decimal.D9 d => 57%N :: uint_units d
  end.

(** The numeral a string of digits spells. *)
Fixpoint units_uint (s : jsstring) : Decimal.uint :=
  match s with
  | [] => Decimal.Nil
  | c :: s' =>
      let d := units_uint s' in
      if N.eqb c 48 then Decimal.D0 d else if N.eqb c 49 then Decimal.D1 d
      else if N.eqb c 50 then Decimal.D2 d else if N.eqb c 51 then Decimal.D3 d
      else if N.eqb c 52 then Decimal.D4 d else if N.eqb c 53 then Decimal.D5 d
      else if N.eqb c 54 then Decimal.D6 d else if N.eqb c 55 then Decimal.D7 d
      else if N.eqb c 56 then Decimal.D8 d else Decimal.D9 d
  end.

(** The sum of the sizes of the groups. *)
Definition reported (groups : list DeploymentGroup) : nat :=
  List.length (List.concat (map contracts groups)).

(** ** The branches of the line loop, and the lines the build tool prints *)

(** Which test of the loop body a line passes first. *)
Inductive Branch :=
| SectionMarker
| StartLine
| CompilerLine
| OptimizationsLine
| SubmittingLine
| StatusLine
| OtherLine.

Definition branch_of (line : jsstring) : Branch :=
  if str_eqb (trim line) (lit "##") then SectionMarker
  else if includes line START_MARKER then StartLine
  else if includes line COMPILER_MARKER then CompilerLine
  else if includes line OPTIMIZATIONS_MARKER then OptimizationsLine
  else if includes line SUBMITTING_MARKER then SubmittingLine
  else if includes line STATUS_MARKER then StatusLine
  else OtherLine.

(** A piece of text without white space, colon, backtick or bracket. *)
Definition is_token_unit (c : N) : bool :=
  negb (is_whitespace c || N.eqb c 58 || N.eqb c 96 || N.eqb c 91 || N.eqb c 93).

Definition start_line (hex digits : jsstring) : jsstring :=
  lit "Start verifying contract `0x" ++ hex ++ lit "` deployed on " ++ digits.

Definition compiler_line (version : jsstring) : jsstring :=
  lit "Compiler version: " ++ version.

Definition optimizations_line (runs : Z) : jsstring :=
  lit "Optimizations:    " ++ Number_toString runs.

Definition submitting_line (path name tail : jsstring) : jsstring :=
  lit "Submitting verification for [" ++ path ++ lit ":" ++ name ++ lit "]" ++ tail.

Definition status_line : jsstring := lit "Contract verification status:".

Definition response_line (status : jsstring) : jsstring :=
  lit "Response: `" ++ status ++ lit "`".

(** ** Creating a TestNet ([createVirtualTestNet], [src/tenderly.ts]) *)

Module Tenderly.

Record RpcEndpoint := {
  name : jsstring;
  url : jsstring
}.

(** The body of a response; [rpcs] is [None] when it is not an array. *)
Record TenderlyApiResponse := {
  id : jsstring;
  rpcs : option (list RpcEndpoint)
}.

(** [requestData]; a number is [None] when it is [NaN]. *)
Record RequestData := {
  slug : jsstring;
  display_name : jsstring;
  network_id : option Z;
  block_number : jsstring;
  chain_id : option Z;
  sync_state_enabled : bool;
  explorer_enabled : bool;
  verification_visibility : jsstring
}.

(** How the awaited [axios.post] ends: with a response and its [data]
    ([None] when falsy); with an Axios error that carries a response, of
    which the [catch] block reads a message; or with any other error. *)
Inductive PostOutcome :=
| Responded (data : option TenderlyApiResponse)
| AxiosErrorWithResponse (message : jsstring)
| OtherError (e : Exn).

Record TestNetResponse := {
  testnet_id : jsstring;
  adminRpcUrl : jsstring;
  publicRpcUrl : jsstring
}.

(** [rpcs.find(rpc => rpc.name === wanted)] *)
Fixpoint find_rpc (wanted : jsstring) (rpcs : list RpcEndpoint) : option RpcEndpoint :=
  match rpcs with
  | [] => None
  | rpc :: rest => if str_eqb (name rpc) wanted then Some rpc else find_rpc wanted rest
  end.

Section Create.

(** The case mapping, the clock, the HTTP client and the text of
    [JSON.stringify] in the two error messages are parameters. *)
Variable String_toLowerCase : jsstring -> jsstring.
Variable now : Z.
Variable axios_post : RequestData -> PostOutcome.
Variable stringify_data : TenderlyApiResponse -> jsstring.
Variable stringify_rpcs : list RpcEndpoint -> jsstring.

Definition requestData (inputs : Inputs.TestNetInputs) : RequestData :=
  {| slug := uniqueTestNetSlug String_toLowerCase now (Inputs.testnetName inputs);
     display_name := Inputs.testnetName inputs;
     network_id := parseInt (Some (Inputs.networkId inputs));
     block_number := Inputs.blockNumber inputs;
     chain_id := parseInt (Some (Inputs.to_String (Inputs.VNumber (Inputs.chainId inputs))));
     sync_state_enabled := Inputs.stateSync inputs;
     explorer_enabled := Inputs.publicExplorer inputs;
     verification_visibility := Inputs.verificationVisibility inputs |}.

Definition createVirtualTestNet (inputs : Inputs.TestNetInputs) : Result TestNetResponse :=
  match axios_post (requestData inputs) with
  | Responded None => inl (JsError (lit "No data returned from Tenderly API"))
  | Responded (Some data) =>
      match rpcs data with
      | None =>
          inl (JsError (lit "Invalid RPC data in response: " ++ stringify_data data))
      | Some endpoints =>
          match find_rpc (lit "Admin RPC") endpoints,
                find_rpc (lit "Public RPC") endpoints with
          | Some adminRpc, Some publicRpc =>
              inr {| testnet_id := id data; adminRpcUrl := url adminRpc;
                     publicRpcUrl := url publicRpc |}
          | _, _ =>
              inl (JsError (lit "Missing RPC endpoints in response: "
                            ++ stringify_rpcs endpoints))
          end
      end
  | AxiosErrorWithResponse message =>
      inl (JsError (lit "Failed to create TestNet: " ++ message))
  | OtherError e => inl e
  end.

End Create.

End Tenderly.

(** ** The post step ([cleanup], [src/cleanup.ts]) *)

(** What a run of [cleanup] does, in order. [push] and
    [pauseVirtualTestNet] run git and HTTP requests; here they are events. *)
Inductive CleanupEvent :=
| ClearSensitiveData
| Warned (text : jsstring)
| WarnedFailure (cause : Exn)
| Informed (text : jsstring)
| Persisted (trace : list Effect)
| Pushed
| Paused (infra : InfrastructureInfo).

Section Cleanup.

(** [mode] is [core.getInput('mode').toUpperCase()]; [push] is how the
    awaited [push()] ends. [pauseVirtualTestNet] settles every request and
    throws nothing. *)
Variable mode : jsstring.
Variable push : Result unit.

(** The [try] block: what it did, and whether it ended normally. *)
Definition cleanup_body (w : World) : list CleanupEvent * Result unit :=
  match readInfraForCurrentJob w with
  | None =>
      ([ClearSensitiveData;
        Warned (lit "No infrastructure information found to cleanup")], inr tt)
  | Some infra =>
      let '(events, result) :=
        if str_eqb mode (lit "CD") then
          let '(trace, persisted) := persistDeploymentInfo w in
          let events :=
            [ClearSensitiveData;
             Informed (lit "Running in CD mode - persisting deployment info");
             Persisted trace] in
          match persisted with
          | inl e => (events, inl e)
          | inr _ =>
              match push with
              | inl e => (events ++ [Pushed], inl e)
              | inr _ =>
                  (events ++ [Pushed; Informed (lit "Keeping containers ON in CD mode")],
                   inr tt)
              end
          end
        else ([ClearSensitiveData], inr tt) in
      match result with
      | inl e => (events, inl e)
      | inr _ =>
          (events ++ (if str_eqb mode (lit "CI") then [Paused infra] else []), inr tt)
      end
  end.

(** The [catch] block turns whatever was thrown into a warning. *)
Definition cleanup (w : World) : list CleanupEvent :=
  let '(events, result) := cleanup_body w in
  match result with
  | inl e => events ++ [WarnedFailure e]
  | inr _ => events
  end.

End Cleanup.

(** ** Inputs used in the examples *)

Module Samples.

Definition unlines (ls : list jsstring) : jsstring := join [NEWLINE] ls.

Definition net1 : NetworkInfo :=
  {| id := lit "vnet-1"; adminRpcUrl := lit "https://admin/1";
     publicRpcUrl := lit "https://public/1"; networkId := lit "1";
     chainId := 1; testnetSlug := lit "ci-1"; explorerUrl := None |}.

Definition net137 : NetworkInfo :=
  {| id := lit "vnet-137"; adminRpcUrl := lit "https://admin/137";
     publicRpcUrl := lit "https://public/137"; networkId := lit "137";
     chainId := 137; testnetSlug := lit "ci-137"; explorerUrl := None |}.

Definition infra1 : InfrastructureInfo :=
  {| networks := [(lit "1", net1); (lit "137", net137)];
     timestamp := lit "2025-01-01T00:00:00.000Z";
     githubContext := {| ctx_workflow := lit "Deploy"; ctx_runId := lit "77";
                         ctx_runNumber := lit "12"; ctx_job := lit "deploy" |} |}.

Definition ctx1 : WorkflowInfo :=
  {| runNumber := 12; workflow := lit "Deploy"; job := lit "deploy"; runId := 77 |}.

(** One contract on chain 1, every field line present. *)
Definition log_a : jsstring := unlines
  [ lit "{ some json }"; lit "##";
    lit "Start verifying contract `0xABCDEF1234567890123456789012345678901234` deployed on 1";
    lit "Compiler version: 0.8.19";
    lit "Optimizations:    200";
    lit "Submitting verification for [src/Counter.sol:Counter] 0xABCDEF1234567890123456789012345678901234.";
    lit "Contract verification status:";
    lit "Response: `OK`" ].

(** Another contract on chain 1, in a second file. *)
Definition log_b : jsstring := unlines
  [ lit "##";
    lit "Start verifying contract `0x00000000000000000000000000000000000000b2` deployed on 1" ].

(** Two contracts whose status lines have the same text, as the build tool
    prints them, with different responses. *)
Definition log_two_statuses : jsstring := unlines
  [ lit "##";
    lit "Start verifying contract `0x1111` deployed on 1";
    lit "Contract verification status:";
    lit "Response: `NOTOK`";
    lit "Details: `Fail - Unable to verify`";
    lit "Start verifying contract `0x2222` deployed on 1";
    lit "Contract verification status:";
    lit "Response: `OK`";
    lit "Details: `Pass - Verified`" ].

(** The same, cut after the second status line. *)
Definition log_status_last : jsstring := unlines
  [ lit "##";
    lit "Start verifying contract `0x1111` deployed on 1";
    lit "Contract verification status:";
    lit "Response: `NOTOK`";
    lit "Start verifying contract `0x2222` deployed on 1";
    lit "Contract verification status:" ].

(** A contract compiled with zero optimizer runs. *)
Definition log_zero_runs : jsstring := unlines
  [ lit "##";
    lit "Start verifying contract `0x1111` deployed on 1";
    lit "Optimizations: 0" ].

(** A workspace whose log directory holds [a.json], [b.json] and a file that
    is not a log. [readable_dir] says whether the directory can be listed,
    [has_infra] whether the run's infra file exists (it decodes to
    [infra1]). *)
Definition world (readable_dir has_infra : bool) : World :=
  {| github_context := ctx1;
     GITHUB_WORKSPACE := Some (lit "/ws");
     fs_readdir := fun _ =>
       if readable_dir then Some [lit "a.json"; lit "notes.txt"; lit "b.json"]
       else None;
     fs_readFile := fun path =>
       if str_eqb path (lit "/ws/.tenderly/tmp/a.json") then Some log_a
       else if str_eqb path (lit "/ws/.tenderly/tmp/b.json") then Some log_b
       else if str_eqb path (lit "/ws/.tenderly/infra/12-deploy-deploy.json")
            then (if has_infra then Some (lit "{}") else None)
       else None;
     fs_writeFile := fun _ => Some tt;
     JSON_parse := fun _ => Some infra1 |}.

End Samples.

(** ** The correlator *)

Section Correlator.

Variable records : list Contract.

Lemma correlate_network_spec (groups : list DeploymentGroup) (env : NetworkInfo) :
  correlate_network records groups env = groups ++ correlate_spec records [env].
Proof.
  unfold correlate_network, correlate_spec, push; simpl.
  destruct (filter (chain_matches env) records) as [|c m]; simpl.
  - now rewrite app_nil_r.
  - reflexivity.
Qed.

Lemma correlate_spec_cons (env : NetworkInfo) (envs : list NetworkInfo) :
  correlate_spec records (env :: envs)
  = correlate_spec records [env] ++ correlate_spec records envs.
Proof.
  unfold correlate_spec; simpl. now rewrite app_nil_r.
Qed.

Lemma correlate_loop_spec (envs : list NetworkInfo) :
  forall groups,
    fold_left (correlate_network records) envs groups
    = groups ++ correlate_spec records envs.
Proof.
  induction envs as [|env envs IH]; intros groups.
  - simpl. now rewrite app_nil_r.
  - change (fold_left (correlate_network records) (env :: envs) groups)
      with (fold_left (correlate_network records) envs
              (correlate_network records groups env)).
    rewrite IH, correlate_network_spec, (correlate_spec_cons env envs).
    symmetry. apply app_assoc.
Qed.

(** The environments of the groups are those with a match, in order. *)
Lemma correlate_spec_environments (envs : list NetworkInfo) :
  map virtualTestNet (correlate_spec records envs)
  = filter (fun env => existsb (chain_matches env) records) envs.
Proof.
  induction envs as [|env envs IH]; [reflexivity|].
  rewrite correlate_spec_cons, map_app, IH; simpl.
  unfold correlate_spec; simpl.
  assert (E : existsb (chain_matches env) records = true
              <-> filter (chain_matches env) records <> []).
  { clear. induction records as [|c cs IHc]; simpl.
    - split; [discriminate | congruence].
    - destruct (chain_matches env c); simpl.
      + split; [discriminate | reflexivity].
      + exact IHc. }
  destruct (filter (chain_matches env) records) as [|c m] eqn:F.
  - destruct (existsb (chain_matches env) records); [|reflexivity].
    exfalso. now apply (proj1 E).
  - destruct (existsb (chain_matches env) records); [reflexivity|].
    assert (false = true) by (apply E; discriminate). discriminate.
Qed.

Lemma correlate_spec_nonempty (envs : list NetworkInfo) :
  Forall (fun g => contracts g <> []) (correlate_spec records envs).
Proof.
  induction envs as [|env envs IH]; [constructor|].
  rewrite correlate_spec_cons. apply Forall_app; split; [|exact IH].
  unfold correlate_spec; simpl.
  destruct (filter (chain_matches env) records) eqn:F; simpl; constructor.
  - simpl. discriminate.
  - constructor.
Qed.

Lemma correlate_spec_contracts (envs : list NetworkInfo) :
  Forall (fun g => contracts g = filter (chain_matches (virtualTestNet g)) records)
         (correlate_spec records envs).
Proof.
  induction envs as [|env envs IH]; [constructor|].
  rewrite correlate_spec_cons. apply Forall_app; split; [|exact IH].
  unfold correlate_spec; simpl.
  destruct (filter (chain_matches env) records) eqn:F; simpl; constructor.
  - simpl. now rewrite F.
  - constructor.
Qed.

End Correlator.

Lemma process_file_spec (infra : InfrastructureInfo) (content : jsstring)
    (groups : list DeploymentGroup) :
  process_file infra content groups
  = groups ++ correlate_spec (scan_file content) (Object_values (networks infra)).
Proof. apply correlate_loop_spec. Qed.

(** The loop over files, when every read succeeds. *)
Lemma for_files_spec (w : World) (dir : jsstring) (infra : InfrastructureInfo) :
  forall files contents groups,
    map (fun f => fs_readFile w (path_join dir f)) files = map (@Some _) contents ->
    for_files w dir infra files groups
    = inr (groups ++ flat_map (fun content =>
             correlate_spec (scan_file content) (Object_values (networks infra)))
           contents).
Proof.
  induction files as [|f files IH]; intros contents groups H.
  - destruct contents; [|discriminate]. simpl. now rewrite app_nil_r.
  - destruct contents as [|c contents]; [discriminate|].
    simpl in H. injection H as Hf Hrest.
    simpl. rewrite Hf. simpl.
    rewrite (IH contents _ Hrest), process_file_spec.
    now rewrite <- app_assoc.
Qed.

(** A failed read stops the loop with that file's fault. *)
Lemma for_files_groups (w : World) (dir : jsstring) (infra : InfrastructureInfo) :
  forall files groups result,
    for_files w dir infra files groups = inr result ->
    exists contents,
      map (fun f => fs_readFile w (path_join dir f)) files = map (@Some _) contents.
Proof.
  induction files as [|f files IH]; intros groups result H.
  - exists []. reflexivity.
  - simpl in H.
    destruct (fs_readFile w (path_join dir f)) as [c|] eqn:R; simpl in H.
    + destruct (IH _ _ H) as [contents Hc].
      exists (c :: contents). simpl. now rewrite R, Hc.
    + discriminate.
Qed.

(** C1 (as amended): when the directory is listed, the infra file decodes and
    every log file is read, [parseDeploymentLogs] returns the groups of the
    first log file, then those of the second, and so on; the groups of one
    file are the specification's grouping of that file's records: the
    environments with a match among that file's records, each once and in
    the stored order, each with all of that file's matching records. *)
Theorem parse_groups_each_file_in_order :
  forall (w : World) (dir : jsstring) (files : list jsstring)
         (infra : InfrastructureInfo) (contents : list jsstring),
    fs_readdir w dir = Some files ->
    readInfraForCurrentJob w = Some infra ->
    map (fun f => fs_readFile w (path_join dir f)) (filter is_json files)
      = map (@Some _) contents ->
    let envs := Object_values (networks infra) in
    exists report,
      parseDeploymentLogs w dir = inr report /\
      deployments report
        = flat_map (fun content => correlate_spec (scan_file content) envs) contents /\
      forall content,
        map virtualTestNet (correlate_spec (scan_file content) envs)
          = filter (fun env => existsb (chain_matches env) (scan_file content)) envs /\
        Forall (fun g => contracts g
                         = filter (chain_matches (virtualTestNet g)) (scan_file content))
               (correlate_spec (scan_file content) envs).
Proof.
  intros w dir files infra contents Hdir Hinfra Hread envs.
  unfold parseDeploymentLogs. rewrite Hdir; simpl. rewrite Hinfra.
  rewrite (for_files_spec w dir infra _ contents [] Hread); simpl.
  eexists; split; [reflexivity|]. split; [reflexivity|].
  intros content; split.
  - apply correlate_spec_environments.
  - apply correlate_spec_contracts.
Qed.

Lemma parse_groups_each_file_in_order_witness :
  exists report,
    parseDeploymentLogs (Samples.world true true) (lit "/ws/.tenderly/tmp")
      = inr report /\
    map virtualTestNet (deployments report) = [Samples.net1; Samples.net1] /\
    map (fun g => List.length (contracts g)) (deployments report) = [1; 1].
Proof.
  destruct (parse_groups_each_file_in_order
              (Samples.world true true) (lit "/ws/.tenderly/tmp")
              [lit "a.json"; lit "notes.txt"; lit "b.json"]
              Samples.infra1 [Samples.log_a; Samples.log_b]
              eq_refl eq_refl eq_refl) as [report [Hp [Hd _]]].
  exists report. split; [exact Hp|].
  rewrite Hd. split; reflexivity.
Defined.

(** C1 as stated fails: two log files with one chain-1 contract each give two
    groups for the same environment, each with one record, where one group
    over the records of all files would hold both. *)
Lemma one_group_per_environment_counterexample :
  exists report,
    parseDeploymentLogs (Samples.world true true)
      (tmpBuildOutDir (Samples.world true true)) = inr report /\
    map virtualTestNet (deployments report) = [Samples.net1; Samples.net1] /\
    ~ NoDup (map virtualTestNet (deployments report)) /\
    map (fun g => List.length (contracts g)) (deployments report) = [1; 1] /\
    map (fun g => List.length (contracts g))
        (correlate_spec (scan_file Samples.log_a ++ scan_file Samples.log_b)
           (Object_values (networks Samples.infra1))) = [2].
Proof.
  eexists. split; [vm_compute; reflexivity|].
  split; [reflexivity|]. split.
  - simpl. intros H. inversion H as [|x l Hin _]. apply Hin. now left.
  - split; vm_compute; reflexivity.
Qed.

(** C8: every group of a returned report has at least one contract. *)
Theorem groups_never_empty :
  forall (w : World) (dir : jsstring) (report : ParsedDeployments),
    parseDeploymentLogs w dir = inr report ->
    Forall (fun g => contracts g <> []) (deployments report).
Proof.
  intros w dir report H. unfold parseDeploymentLogs in H.
  destruct (fs_readdir w dir) as [files|]; simpl in H; [|discriminate].
  destruct (readInfraForCurrentJob w) as [infra|]; [|discriminate].
  destruct (for_files w dir infra (filter is_json files) []) as [e|groups] eqn:F;
    simpl in H; [discriminate|].
  injection H as <-. simpl.
  destruct (for_files_groups _ _ _ _ _ _ F) as [contents Hc].
  rewrite (for_files_spec _ _ _ _ _ _ Hc) in F. injection F as <-. simpl.
  clear Hc. induction contents as [|c contents IH]; simpl; [constructor|].
  apply Forall_app; split; [apply correlate_spec_nonempty | exact IH].
Qed.

Lemma groups_never_empty_witness :
  Forall (fun g => contracts g <> [])
    (deployments
       {| pd_workflow := Samples.ctx1;
          deployments :=
            correlate_spec (scan_file Samples.log_a) [Samples.net1; Samples.net137]
            ++ correlate_spec (scan_file Samples.log_b) [Samples.net1; Samples.net137] |}).
Proof.
  apply (groups_never_empty (Samples.world true true) (lit "/ws/.tenderly/tmp")).
  vm_compute. reflexivity.
Defined.

(** ** The scanner *)

Lemma str_eqb_eq (a b : jsstring) : str_eqb a b = true <-> a = b.
Proof.
  revert b. induction a as [|x a IH]; intros [|y b]; simpl;
    try (split; [discriminate | congruence]); [tauto|].
  rewrite andb_true_iff, N.eqb_eq, IH.
  split; [intros [-> ->]; reflexivity | intros [= -> ->]; auto].
Qed.

Lemma starts_with_head (p c : N) (pat s : jsstring) :
  starts_with (p :: pat) (c :: s) = true -> p = c.
Proof. simpl. rewrite andb_true_iff, N.eqb_eq. tauto. Qed.

Lemma includes_head (p : N) (pat : jsstring) :
  forall s, includes s (p :: pat) = true -> In p s.
Proof.
  induction s as [|c s IH]; intros H.
  - simpl in H. discriminate.
  - change (includes (c :: s) (p :: pat))
      with (starts_with (p :: pat) (c :: s) || includes s (p :: pat)) in H.
    apply orb_true_iff in H. destruct H as [H|H].
    + left. symmetry. exact (starts_with_head _ _ _ _ H).
    + right. exact (IH H).
Qed.

Lemma drop_while_keeps (p : N -> bool) (c : N) :
  forall s, In c s -> p c = true \/ In c (drop_while p s).
Proof.
  induction s as [|x s IH]; intros Hin; [contradiction|].
  simpl. destruct (p x) eqn:Px.
  - destruct Hin as [->|Hin]; [now left | exact (IH Hin)].
  - now right.
Qed.

Lemma trim_keeps (c : N) (s : jsstring) :
  In c s -> is_whitespace c = true \/ In c (trim s).
Proof.
  intros Hin. unfold trim.
  destruct (drop_while_keeps is_whitespace c s Hin) as [W|H1]; [now left|].
  apply in_rev in H1.
  destruct (drop_while_keeps is_whitespace c _ H1) as [W|H2]; [now left|].
  right. now apply in_rev in H2.
Qed.

(** A line that is the section marker after trimming holds no start marker,
    so the first test of the loop body never hides a start line. *)
Lemma start_line_is_not_section_marker (line : jsstring) :
  includes line START_MARKER = true -> str_eqb (trim line) (lit "##") = false.
Proof.
  intros Hs. destruct (str_eqb (trim line) (lit "##")) eqn:E; [|reflexivity].
  apply str_eqb_eq in E.
  apply (includes_head 83%N) in Hs.
  destruct (trim_keeps _ _ Hs) as [W|Hin].
  - vm_compute in W. discriminate.
  - rewrite E in Hin. vm_compute in Hin.
    destruct Hin as [H|[H|[]]]; discriminate.
Qed.

(** Case analysis along the tests of the loop body. *)
Ltac scan_cases st line :=
  unfold scan_line;
  destruct (str_eqb (trim line) (lit "##"));
  [|destruct (isInDeploymentSection st);
    [destruct (includes line START_MARKER);
     [|destruct (includes line COMPILER_MARKER);
       [|destruct (includes line OPTIMIZATIONS_MARKER);
         [|destruct (includes line SUBMITTING_MARKER);
           [destruct (regex_search bracket_at line)
           |destruct (includes line STATUS_MARKER)]]]]|]].

Lemma section_marker_enters (lines : list jsstring) (st : ScanState) (line : jsstring) :
  str_eqb (trim line) (lit "##") = true ->
  isInDeploymentSection (scan_line lines st line) = true.
Proof. intros H. unfold scan_line. now rewrite H. Qed.

Lemma section_never_left (lines : list jsstring) (st : ScanState) (line : jsstring) :
  isInDeploymentSection st = true ->
  isInDeploymentSection (scan_line lines st line) = true.
Proof.
  intros H. scan_cases st line; try reflexivity; discriminate H.
Qed.

Lemma section_never_left_fold (lines : list jsstring) :
  forall (todo : list jsstring) (st : ScanState),
    isInDeploymentSection st = true ->
    isInDeploymentSection (fold_left (scan_line lines) todo st) = true.
Proof.
  induction todo as [|l todo IH]; intros st H; simpl; [exact H|].
  apply IH. now apply section_never_left.
Qed.

Lemma section_entered_fold (lines : list jsstring) :
  forall (pre : list jsstring) (st : ScanState),
    Exists (fun l => str_eqb (trim l) (lit "##") = true) pre ->
    isInDeploymentSection (fold_left (scan_line lines) pre st) = true.
Proof.
  induction pre as [|l pre IH]; intros st H; inversion H; subst; simpl.
  - apply section_never_left_fold. now apply section_marker_enters.
  - now apply IH.
Qed.

(** A line without the start marker pushes nothing and leaves the address
    and chain of the current record as they are. *)
Lemma other_line_keeps (lines : list jsstring) (st : ScanState) (line : jsstring) :
  includes line START_MARKER = false ->
  scanned (scan_line lines st line) = scanned st /\
  address (currentContract (scan_line lines st line)) = address (currentContract st) /\
  chain (currentContract (scan_line lines st line)) = chain (currentContract st).
Proof.
  intros H. scan_cases st line; try discriminate H; auto.
Qed.

Lemma other_lines_keep (lines : list jsstring) :
  forall (todo : list jsstring) (st : ScanState),
    Forall (fun l => includes l START_MARKER = false) todo ->
    let st' := fold_left (scan_line lines) todo st in
    scanned st' = scanned st /\
    address (currentContract st') = address (currentContract st) /\
    chain (currentContract st') = chain (currentContract st).
Proof.
  induction todo as [|l todo IH]; intros st H; simpl; [auto|].
  inversion H as [|? ? Hl Htodo]; subst.
  destruct (IH (scan_line lines st l) Htodo) as (S1 & A1 & C1).
  destruct (other_line_keeps lines st l Hl) as (S2 & A2 & C2).
  simpl in S1, A1, C1. repeat split; congruence.
Qed.

Lemma flush_open (cur : Contract) (cs : list Contract) :
  address cur <> None -> flush cur cs = cs ++ [cur].
Proof.
  intros H. unfold flush, push, keys_length.
  destruct (address cur); [reflexivity | congruence].
Qed.

(** The state at the end of the lines, when the last start line was met
    inside the section. *)
Lemma last_start_line_stays_open (lines pre : list jsstring) (line : jsstring)
    (post : list jsstring) :
  Exists (fun l => str_eqb (trim l) (lit "##") = true) pre ->
  includes line START_MARKER = true ->
  Forall (fun l => includes l START_MARKER = false) post ->
  let st := fold_left (scan_line lines) (pre ++ line :: post) initial_state in
  flush (currentContract st) (scanned st) = scanned st ++ [currentContract st] /\
  address (currentContract st) = address (open_contract line) /\
  chain (currentContract st) = chain (open_contract line).
Proof.
  intros Hsec Hstart Hpost st. subst st.
  rewrite fold_left_app. simpl fold_left.
  set (st1 := fold_left (scan_line lines) pre initial_state).
  assert (Hin : isInDeploymentSection st1 = true)
    by (apply section_entered_fold; exact Hsec).
  assert (Hopen : currentContract (scan_line lines st1 line) = open_contract line).
  { unfold scan_line.
    rewrite (start_line_is_not_section_marker line Hstart), Hin, Hstart.
    reflexivity. }
  destruct (other_lines_keep lines post (scan_line lines st1 line) Hpost)
    as (_ & A & C). simpl in A, C. rewrite Hopen in A, C.
  split; [|auto].
  apply flush_open. rewrite A. discriminate.
Qed.

(** C7: a record opened inside the section by a start line, with no start
    line after it, is the last record of the file's scan: it is the current
    record at the end of the file, and its address and chain are those read
    from the start line. *)
Theorem open_record_flushed_at_end_of_file :
  forall (content : jsstring) (pre : list jsstring) (line : jsstring)
         (post : list jsstring),
    split NEWLINE content = pre ++ line :: post ->
    Exists (fun l => str_eqb (trim l) (lit "##") = true) pre ->
    includes line START_MARKER = true ->
    Forall (fun l => includes l START_MARKER = false) post ->
    exists (earlier : list Contract) (record : Contract),
      scan_file content = earlier ++ [record] /\
      record = currentContract
                 (fold_left (scan_line (split NEWLINE content))
                    (split NEWLINE content) initial_state) /\
      address record = address (open_contract line) /\
      chain record = chain (open_contract line).
Proof.
  intros content pre line post Hsplit Hsec Hstart Hpost.
  pose proof (last_start_line_stays_open (split NEWLINE content)
                pre line post Hsec Hstart Hpost) as H.
  cbv zeta in H. rewrite <- Hsplit in H. destruct H as (F & A & C).
  unfold scan_file, scan_lines. cbv zeta. rewrite F.
  eexists _, _. split; [reflexivity|]. split; [reflexivity|]. split; assumption.
Qed.

Lemma open_record_flushed_at_end_of_file_witness :
  exists (earlier : list Contract) (record : Contract),
    scan_file Samples.log_a = earlier ++ [record] /\
    address record = Some (lit "0xABCDEF1234567890123456789012345678901234") /\
    chain record = Some (lit "1").
Proof.
  destruct (open_record_flushed_at_end_of_file Samples.log_a
              [lit "{ some json }"; lit "##"]
              (lit "Start verifying contract `0xABCDEF1234567890123456789012345678901234` deployed on 1")
              [lit "Compiler version: 0.8.19";
               lit "Optimizations:    200";
               lit "Submitting verification for [src/Counter.sol:Counter] 0xABCDEF1234567890123456789012345678901234.";
               lit "Contract verification status:";
               lit "Response: `OK`"])
    as (earlier & record & H1 & _ & H3 & H4).
  - vm_compute. reflexivity.
  - apply Exists_cons_tl, Exists_cons_hd. vm_compute. reflexivity.
  - vm_compute. reflexivity.
  - repeat constructor.
  - exists earlier, record. repeat split; assumption.
Defined.

(** *** Files without a start line *)

Lemma outside_section_ignored (lines : list jsstring) :
  forall (todo : list jsstring) (st : ScanState),
    isInDeploymentSection st = false ->
    Forall (fun l => str_eqb (trim l) (lit "##") = false) todo ->
    fold_left (scan_line lines) todo st = st.
Proof.
  induction todo as [|l todo IH]; intros st Hout H; simpl; [reflexivity|].
  inversion H as [|? ? Hl Htodo]; subst.
  assert (E : scan_line lines st l = st)
    by (unfold scan_line; rewrite Hl, Hout; reflexivity).
  rewrite E. now apply IH.
Qed.

Lemma unrecognised_line_keeps_record (lines : list jsstring) (st : ScanState)
    (line : jsstring) :
  includes line START_MARKER = false ->
  is_field_line line = false ->
  currentContract (scan_line lines st line) = currentContract st.
Proof.
  unfold is_field_line. intros Hs Hf.
  repeat (apply orb_false_iff in Hf; destruct Hf as [Hf ?]).
  unfold scan_line.
  destruct (str_eqb (trim line) (lit "##")); [reflexivity|].
  destruct (isInDeploymentSection st); [|reflexivity].
  rewrite Hs, Hf. simpl.
  repeat match goal with H : includes _ _ = false |- _ => rewrite H; clear H end.
  reflexivity.
Qed.

Lemma unrecognised_lines_keep_record (lines : list jsstring) :
  forall (todo : list jsstring) (st : ScanState),
    Forall (fun l => includes l START_MARKER = false) todo ->
    Forall (fun l => is_field_line l = false) todo ->
    currentContract (fold_left (scan_line lines) todo st) = currentContract st.
Proof.
  induction todo as [|l todo IH]; intros st Hs Hf; simpl; [reflexivity|].
  inversion Hs; inversion Hf; subst.
  rewrite IH by assumption. now apply unrecognised_line_keeps_record.
Qed.

Lemma no_chain_no_group (records : list Contract) (envs : list NetworkInfo) :
  (forall c, In c records -> chain c = None) ->
  correlate_spec records envs = [].
Proof.
  intros H. unfold correlate_spec.
  induction envs as [|env envs IH]; [reflexivity|]. simpl. rewrite IH.
  assert (E : filter (chain_matches env) records = []).
  { clear IH. induction records as [|c cs IHc]; [reflexivity|]. simpl.
    unfold chain_matches at 1. rewrite (H c (or_introl eq_refl)).
    apply IHc. intros c' Hc'. apply H. now right. }
  now rewrite E.
Qed.

Lemma markerless_records (content : jsstring) :
  Forall (fun l => includes l START_MARKER = false) (split NEWLINE content) ->
  forall c, In c (scan_file content) -> address c = None /\ chain c = None.
Proof.
  intros H c.
  destruct (other_lines_keep (split NEWLINE content) _ initial_state H)
    as (S & A & C). simpl in S, A, C.
  unfold scan_file, scan_lines. cbv zeta. rewrite S.
  unfold flush, push.
  destruct (Nat.ltb 0 _); simpl; [|tauto].
  intros [<-|[]]. auto.
Qed.

Lemma markerless_adds_nothing (content : jsstring) :
  Forall (fun l => includes l START_MARKER = false) (split NEWLINE content) ->
  forall infra groups, process_file infra content groups = groups.
Proof.
  intros H infra groups. rewrite process_file_spec, no_chain_no_group.
  - apply app_nil_r.
  - intros c Hc. now apply (markerless_records content H).
Qed.

(** C2 as stated fails: a file with the section marker and a compiler line,
    and no start line, leaves one record in the scanner's sequence. *)
Lemma no_start_marker_counterexample :
  forallb (fun l => negb (includes l START_MARKER))
    (split NEWLINE (Samples.unlines [lit "##"; lit "Compiler version: 0.8.19"])) = true /\
  scan_file (Samples.unlines [lit "##"; lit "Compiler version: 0.8.19"])
  = [ {| address := None; chain := None; verificationStatus := None;
         compiler := Some (Some (lit "0.8.19")); optimizations := None;
         contractPath := None; contractName := None |} ].
Proof. split; vm_compute; reflexivity. Qed.

(** C2 (as amended): for a file none of whose lines holds the start marker,
    the scanner's sequence has at most one record, a record in it has neither
    an address nor a chain, and the file adds no group to the report; the
    sequence is empty when the file has no section-marker line or no field
    line. *)
Theorem no_start_marker_no_group :
  forall (content : jsstring),
    Forall (fun l => includes l START_MARKER = false) (split NEWLINE content) ->
    (List.length (scan_file content) <= 1)%nat /\
    (forall c, In c (scan_file content) -> address c = None /\ chain c = None) /\
    (forall infra groups, process_file infra content groups = groups) /\
    (Forall (fun l => str_eqb (trim l) (lit "##") = false) (split NEWLINE content)
     \/ Forall (fun l => is_field_line l = false) (split NEWLINE content) ->
     scan_file content = []).
Proof.
  intros content H.
  destruct (other_lines_keep (split NEWLINE content) _ initial_state H)
    as (S & A & C). simpl in S, A, C.
  split; [|split; [exact (markerless_records content H)|split]].
  - unfold scan_file, scan_lines. cbv zeta. rewrite S. unfold flush, push.
    destruct (Nat.ltb 0 _); simpl; lia.
  - exact (markerless_adds_nothing content H).
  - intros [Hm|Hf]; unfold scan_file, scan_lines; cbv zeta.
    + now rewrite outside_section_ignored.
    + rewrite S, (unrecognised_lines_keep_record _ _ initial_state H Hf).
      reflexivity.
Qed.

Lemma no_start_marker_no_group_witness :
  (List.length (scan_file (Samples.unlines [lit "##"; lit "Compiler version: 0.8.19"])) <= 1)%nat /\
  process_file Samples.infra1
    (Samples.unlines [lit "##"; lit "Compiler version: 0.8.19"]) [] = [].
Proof.
  destruct (no_start_marker_no_group
              (Samples.unlines [lit "##"; lit "Compiler version: 0.8.19"]))
    as (L & _ & P & _).
  - repeat constructor.
  - split; [exact L | apply P].
Defined.

(** A directory whose log files hold no start line gives a report without
    groups. *)
Lemma no_start_marker_empty_report (w : World) (dir : jsstring)
    (infra : InfrastructureInfo) :
  forall files groups,
    Forall (fun f => exists content,
              fs_readFile w (path_join dir f) = Some content /\
              Forall (fun l => includes l START_MARKER = false)
                     (split NEWLINE content)) files ->
    for_files w dir infra files groups = inr groups.
Proof.
  induction files as [|f files IH]; intros groups H; [reflexivity|].
  inversion H as [|? ? (content & R & Hc) Hfiles]; subst.
  simpl. rewrite R. simpl.
  rewrite (markerless_adds_nothing content Hc). now apply IH.
Qed.

(** *** One state machine per file *)

(** The groups of the files before are only ever extended. *)
Lemma for_files_accumulates (w : World) (dir : jsstring) (infra : InfrastructureInfo) :
  forall files groups,
    for_files w dir infra files groups
    = (later <- for_files w dir infra files [] ;; inr (groups ++ later)).
Proof.
  induction files as [|f files IH]; intros groups; simpl.
  - now rewrite app_nil_r.
  - destruct (fs_readFile w (path_join dir f)) as [content|]; simpl; [|reflexivity].
    rewrite (IH (process_file infra content groups)).
    rewrite (IH (process_file infra content [])).
    destruct (for_files w dir infra files []) as [e|later]; simpl; [reflexivity|].
    rewrite (process_file_spec infra content groups).
    rewrite (process_file_spec infra content []). simpl.
    now rewrite <- !app_assoc.
Qed.

(** C10: the scanner's state belongs to one file. Every file is scanned from
    the initial state (outside the section, no property on the current
    record, nothing scanned); what a file adds to the report is what it adds
    when processed alone from an empty report, whatever files come before or
    after it; and the section is never left: a step from inside the section
    ends inside it, and from a section-marker line on, every later line of
    the file is met inside the section. *)
Theorem scanner_state_is_per_file :
  (isInDeploymentSection initial_state = false /\
   keys_length (currentContract initial_state) = 0 /\
   scanned initial_state = []) /\
  (forall content,
     scan_file content
     = let lines := split NEWLINE content in
       let st := fold_left (scan_line lines) lines initial_state in
       flush (currentContract st) (scanned st)) /\
  (forall w dir infra file rest groups content,
     fs_readFile w (path_join dir file) = Some content ->
     for_files w dir infra (file :: rest) groups
     = (later <- for_files w dir infra rest [] ;;
        inr (groups ++ process_file infra content [] ++ later))) /\
  (forall lines st line,
     isInDeploymentSection st = true ->
     isInDeploymentSection (scan_line lines st line) = true) /\
  (forall lines pre line post st k,
     str_eqb (trim line) (lit "##") = true ->
     isInDeploymentSection
       (fold_left (scan_line lines) (pre ++ line :: firstn k post) st) = true).
Proof.
  split; [repeat split|]. split; [reflexivity|]. split; [|split].
  - intros w dir infra file rest groups content R.
    simpl. rewrite R. simpl.
    rewrite for_files_accumulates.
    destruct (for_files w dir infra rest []) as [e|later]; simpl; [reflexivity|].
    rewrite (process_file_spec infra content groups).
    rewrite (process_file_spec infra content []). simpl.
    now rewrite <- app_assoc.
  - exact section_never_left.
  - intros lines pre line post st k H.
    rewrite fold_left_app. simpl.
    apply section_never_left_fold. now apply section_marker_enters.
Qed.

Lemma scanner_state_is_per_file_witness :
  for_files (Samples.world true true) (lit "/ws/.tenderly/tmp") Samples.infra1
    [lit "a.json"; lit "b.json"] []
  = inr (process_file Samples.infra1 Samples.log_a []
         ++ process_file Samples.infra1 Samples.log_b []) /\
  isInDeploymentSection
    (fold_left (scan_line [lit "x"; lit " ## "; lit "y"; lit "z"])
       [lit "x"; lit " ## "; lit "y"] initial_state) = true.
Proof.
  destruct scanner_state_is_per_file as (_ & _ & Hfiles & _ & Hsec).
  split.
  - rewrite (Hfiles (Samples.world true true) (lit "/ws/.tenderly/tmp")
               Samples.infra1 (lit "a.json") [lit "b.json"] [] Samples.log_a eq_refl).
    rewrite (Hfiles (Samples.world true true) (lit "/ws/.tenderly/tmp")
               Samples.infra1 (lit "b.json") [] [] Samples.log_b eq_refl).
    vm_compute. reflexivity.
  - apply (Hsec [lit "x"; lit " ## "; lit "y"; lit "z"] [lit "x"] (lit " ## ")
             [lit "y"; lit "z"] initial_state 1%nat).
    vm_compute. reflexivity.
Defined.

(** ** Errors of [parseDeploymentLogs] *)

(** The loop over files throws nothing but the fault of a read. *)
Lemma for_files_throws_fs (w : World) (dir : jsstring) (infra : InfrastructureInfo) :
  forall files groups e,
    for_files w dir infra files groups = inl e -> exists path, e = FsError path.
Proof.
  induction files as [|f files IH]; intros groups e H; simpl in H; [discriminate|].
  destruct (fs_readFile w (path_join dir f)) as [content|]; simpl in H.
  - exact (IH _ _ H).
  - injection H as <-. eexists; reflexivity.
Qed.

(** C5 as stated fails: with no infra file and a log directory that cannot
    be listed, the call throws the fault of the listing, which comes first,
    and not the missing-infrastructure error. *)
Lemma missing_snapshot_counterexample :
  readInfraForCurrentJob (Samples.world false false) = None /\
  parseDeploymentLogs (Samples.world false false) (lit "/ws/.tenderly/tmp")
  = inl (FsError (lit "/ws/.tenderly/tmp")).
Proof. split; vm_compute; reflexivity. Qed.

(** C5 (as amended): [parseDeploymentLogs] throws the error saying that no
    infrastructure information was found exactly when the log directory was
    listed and [readInfraForCurrentJob] gave nothing; with a snapshot it
    never throws it. *)
Theorem missing_snapshot_error_iff :
  forall (w : World) (dir : jsstring),
    parseDeploymentLogs w dir = inl NO_INFRA
    <-> (fs_readdir w dir <> None /\ readInfraForCurrentJob w = None).
Proof.
  intros w dir. unfold parseDeploymentLogs.
  destruct (fs_readdir w dir) as [files|]; simpl.
  - destruct (readInfraForCurrentJob w) as [infra|].
    + split; [|intros [_ H]; discriminate].
      destruct (for_files w dir infra (filter is_json files) []) as [e|g] eqn:F;
        simpl; [|discriminate].
      destruct (for_files_throws_fs _ _ _ _ _ _ F) as [path ->]. discriminate.
    + split; [intros _; split; [discriminate|reflexivity] | reflexivity].
  - split; [discriminate | intros [H _]; congruence].
Qed.

(** ** The run key *)

Lemma key_unit_is_safe (c : N) :
  is_key_unit c = true ->
  c <> 47%N /\ is_upper c = false /\ is_whitespace c = false.
Proof.
  unfold is_key_unit, is_lower, is_digit, is_upper, is_whitespace, in_range, HYPHEN.
  rewrite !orb_true_iff, !andb_true_iff, !N.leb_le, N.eqb_eq.
  intros H.
  rewrite !orb_false_iff, !andb_false_iff, !N.leb_gt, !N.eqb_neq.
  lia.
Qed.

Lemma lower_unit_key (c : N) :
  is_alnum_or_hyphen c = true -> is_key_unit (lower_unit c) = true.
Proof.
  unfold is_alnum_or_hyphen, is_key_unit, lower_unit, is_lower, is_digit,
    is_upper, in_range, HYPHEN.
  destruct (N.leb_spec 65 c), (N.leb_spec c 90); simpl;
    rewrite !orb_true_iff, !andb_true_iff, !N.leb_le, !N.eqb_eq; lia.
Qed.

Lemma sanitizeFileName_key (name : jsstring) :
  Forall (fun c => is_key_unit c = true) (sanitizeFileName name).
Proof.
  unfold sanitizeFileName, toLowerCase, remove_others.
  apply Forall_map, Forall_forall. intros c Hc.
  apply filter_In in Hc. now apply lower_unit_key.
Qed.

(** C6: the key of a run is determined by its run number, workflow and job,
    and every code unit of it is a lower-case letter, a digit or a hyphen: no
    slash, no upper-case letter, no white space. The same holds of
    [sanitizeFileName] on every name. *)
Theorem currentJobFileBasename_deterministic_and_safe :
  forall (c1 c2 : WorkflowInfo),
    runNumber c1 = runNumber c2 ->
    workflow c1 = workflow c2 ->
    job c1 = job c2 ->
    currentJobFileBasename c1 = currentJobFileBasename c2 /\
    Forall (fun c => is_key_unit c = true /\ c <> 47%N /\
                     is_upper c = false /\ is_whitespace c = false)
           (currentJobFileBasename c1) /\
    forall name,
      Forall (fun c => is_key_unit c = true /\ c <> 47%N /\
                       is_upper c = false /\ is_whitespace c = false)
             (sanitizeFileName name).
Proof.
  intros c1 c2 Hn Hw Hj.
  assert (S : forall name,
             Forall (fun c => is_key_unit c = true /\ c <> 47%N /\
                              is_upper c = false /\ is_whitespace c = false)
                    (sanitizeFileName name)).
  { intros name. eapply Forall_impl; [|apply sanitizeFileName_key].
    intros c Hc. split; [exact Hc | now apply key_unit_is_safe]. }
  split; [|split; [apply S | exact S]].
  unfold currentJobFileBasename. now rewrite Hn, Hw, Hj.
Qed.

Lemma currentJobFileBasename_deterministic_and_safe_witness :
  currentJobFileBasename
    {| runNumber := 12; workflow := lit "Build / Deploy  (prod)";
       job := lit "deploy_" ++ [201%N]; runId := 1 |}
  = lit "12-build---deploy-prod-deploy" /\
  currentJobFileBasename
    {| runNumber := 12; workflow := lit "Build / Deploy  (prod)";
       job := lit "deploy_" ++ [201%N]; runId := 2 |}
  = lit "12-build---deploy-prod-deploy".
Proof.
  destruct (currentJobFileBasename_deterministic_and_safe
              {| runNumber := 12; workflow := lit "Build / Deploy  (prod)";
                 job := lit "deploy_" ++ [201%N]; runId := 1 |}
              {| runNumber := 12; workflow := lit "Build / Deploy  (prod)";
                 job := lit "deploy_" ++ [201%N]; runId := 2 |}
              eq_refl eq_refl eq_refl) as [E _].
  split; [|rewrite <- E]; vm_compute; reflexivity.
Defined.

(** ** The persister *)

(** C9: [persistDeploymentInfo] calls the write of the report file exactly
    when the parse returned a report with at least one group; the write is
    then of that report to the run's deployments file. With no group, or
    when the parse threw, the trace holds no write. *)
Theorem report_written_iff_some_group :
  forall (w : World),
    ((exists path data, In (WriteFile path data) (fst (persistDeploymentInfo w)))
     <-> (exists report,
            parseDeploymentLogs w (tmpBuildOutDir w) = inr report /\
            deployments report <> [])) /\
    (forall path data,
       In (WriteFile path data) (fst (persistDeploymentInfo w)) ->
       path = deploymentsFile w /\
       parseDeploymentLogs w (tmpBuildOutDir w) = inr data) /\
    (forall report,
       parseDeploymentLogs w (tmpBuildOutDir w) = inr report ->
       deployments report = [] ->
       filter is_write (fst (persistDeploymentInfo w)) = []).
Proof.
  intros w. unfold persistDeploymentInfo.
  destruct (parseDeploymentLogs w (tmpBuildOutDir w)) as [e|report]; simpl.
  - split; [split|split].
    + intros (? & ? & []).
    + intros (? & H & _). discriminate.
    + intros ? ? [].
    + discriminate.
  - destruct (deployments report) as [|g gs] eqn:D; simpl.
    + split; [split|split].
      * intros (? & ? & [H|[]]). discriminate.
      * intros (r & [= <-] & H). congruence.
      * intros ? ? [H|[]]. discriminate.
      * reflexivity.
    + split; [split|split].
      * intros _. exists report. split; [reflexivity|]. rewrite D. discriminate.
      * intros _. exists (deploymentsFile w), report. right. right. now left.
      * intros path data [H|[H|[H|[]]]]; try discriminate.
        injection H as <- <-. auto.
      * intros r [= <-]. congruence.
Qed.

Lemma report_written_iff_some_group_witness :
  exists path data,
    In (WriteFile path data) (fst (persistDeploymentInfo (Samples.world true true))).
Proof.
  apply (proj1 (report_written_iff_some_group (Samples.world true true))).
  eexists. split; [vm_compute; reflexivity | discriminate].
Defined.

(** ** The status lookahead *)

Lemma str_eqb_refl (a : jsstring) : str_eqb a a = true.
Proof. now apply str_eqb_eq. Qed.

Lemma indexOf_first (line : jsstring) (rest : list jsstring) :
  forall pre,
    ~ In line pre ->
    indexOf (pre ++ line :: rest) line = Z.of_nat (List.length pre).
Proof.
  induction pre as [|y pre IH]; intros Hnot.
  - simpl. now rewrite str_eqb_refl.
  - change (indexOf ((y :: pre) ++ line :: rest) line)
      with (if str_eqb y line then 0%Z
            else let r := indexOf (pre ++ line :: rest) line in
                 if (r <? 0)%Z then (-1)%Z else (r + 1)%Z).
    destruct (str_eqb y line) eqn:E.
    + apply str_eqb_eq in E. exfalso. apply Hnot. now left.
    + rewrite IH by (intros H; apply Hnot; now right).
      cbv zeta. destruct (Z.ltb_spec (Z.of_nat (List.length pre)) 0); simpl List.length; lia.
Qed.

(** Where the status line's text occurs for the first time, the lookahead
    reads the line after it, and nothing when it is the last line. *)
Lemma lookahead_at_first_occurrence (pre : list jsstring) (line : jsstring)
    (rest : list jsstring) :
  ~ In line pre ->
  lookahead_status (pre ++ line :: rest) line
  = match rest with
    | next :: _ => string_or (regex_search response_at next) None (@Some _)
    | [] => None
    end.
Proof.
  intros Hnot. unfold lookahead_status, array_get.
  rewrite (indexOf_first line rest pre Hnot).
  destruct (Z.ltb_spec (Z.of_nat (List.length pre) + 1) 0) as [Hlt|_]; [lia|].
  replace (Z.to_nat (Z.of_nat (List.length pre) + 1)) with (S (List.length pre)) by lia.
  rewrite nth_error_app2 by lia.
  replace (S (List.length pre) - List.length pre)%nat with 1%nat by lia.
  destruct rest; reflexivity.
Qed.

(** C3, at the failing input: the second contract's status line has the same
    text as the first one's, [indexOf] finds the first, and the second record
    gets the first contract's response instead of the one on the line after
    its own status line; when the repeated status line is the last line of
    the file, the status is the earlier response instead of absent. *)
Theorem status_lookahead_reads_after_first_occurrence :
  (nth_error (split NEWLINE Samples.log_two_statuses) 6
     = Some (lit "Contract verification status:") /\
   nth_error (split NEWLINE Samples.log_two_statuses) 7
     = Some (lit "Response: `OK`") /\
   map verificationStatus (scan_file Samples.log_two_statuses)
     = [Some (Some (lit "NOTOK")); Some (Some (lit "NOTOK"))]) /\
  (last (split NEWLINE Samples.log_status_last) []
     = lit "Contract verification status:" /\
   map verificationStatus (scan_file Samples.log_status_last)
     = [Some (Some (lit "NOTOK")); Some (Some (lit "NOTOK"))]).
Proof. repeat split; vm_compute; reflexivity. Qed.

(** ** The optimizer runs *)

(** The value kept is the parsed one unless that is zero or not a number. *)
Lemma number_or_null_spec (x : option Z) (n : Z) :
  number_or_null x = Some n <-> x = Some n /\ n <> 0%Z.
Proof.
  unfold number_or_null. destruct x as [z|].
  - destruct (Z.eqb_spec z 0); split.
    + discriminate.
    + intros [[= ->] H]. contradiction.
    + intros [= <-]. auto.
    + intros [[= ->] _]. reflexivity.
  - split; [discriminate | intros [H _]; discriminate].
Qed.

(** C4, at the failing input: the line "Optimizations: 0" parses to the
    integer 0, and the record's field is set to null, because [0 || null] is
    [null]; a line with 200 runs sets 200. *)
Theorem zero_optimizer_runs_recorded_as_null :
  parseInt (after_colon (lit "Optimizations: 0")) = Some 0%Z /\
  map optimizations (scan_file Samples.log_zero_runs) = [Some None] /\
  map optimizations (scan_file Samples.log_a) = [Some (Some 200%Z)].
Proof. repeat split; vm_compute; reflexivity. Qed.

(** ** More about run keys *)

Lemma replace_slashes_key (s : jsstring) :
  Forall (fun c => is_key_unit c = true) s -> replace_slashes s = s.
Proof.
  induction 1 as [|c s Hc _ IH]; [reflexivity|].
  unfold replace_slashes in *. simpl. rewrite IH.
  destruct (key_unit_is_safe c Hc) as (Hs & _).
  apply N.eqb_neq in Hs. now rewrite Hs.
Qed.

Lemma replace_whitespace_none (s : jsstring) :
  Forall (fun c => is_whitespace c = false) s ->
  forall in_run, replace_whitespace in_run s = s.
Proof.
  induction 1 as [|c s Hc _ IH]; intros in_run; [reflexivity|].
  simpl. now rewrite Hc, IH.
Qed.

Lemma filter_all (p : N -> bool) (s : jsstring) :
  Forall (fun c => p c = true) s -> filter p s = s.
Proof.
  induction 1 as [|c s Hc _ IH]; [reflexivity|].
  simpl. now rewrite Hc, IH.
Qed.

Lemma key_unit_alnum (c : N) :
  is_key_unit c = true -> is_alnum_or_hyphen c = true /\ lower_unit c = c.
Proof.
  intros H. destruct (key_unit_is_safe c H) as (_ & U & _).
  unfold lower_unit. rewrite U. split; [|reflexivity].
  unfold is_key_unit in H. unfold is_alnum_or_hyphen. rewrite U.
  destruct (is_lower c); simpl in *; exact H.
Qed.

(** A name made of key units is its own key. *)
Lemma sanitizeFileName_fixes_keys (s : jsstring) :
  Forall (fun c => is_key_unit c = true) s -> sanitizeFileName s = s.
Proof.
  intros H. unfold sanitizeFileName.
  rewrite (replace_slashes_key s H).
  rewrite replace_whitespace_none
    by (eapply Forall_impl; [|exact H]; intros c Hc; now apply key_unit_is_safe).
  unfold remove_others. rewrite filter_all
    by (eapply Forall_impl; [|exact H]; intros c Hc; now apply key_unit_alnum).
  unfold toLowerCase. rewrite <- (map_id s) at 2.
  apply map_ext_in. intros c Hc.
  rewrite Forall_forall in H.
  destruct (key_unit_alnum c (H c Hc)) as [_ E]. exact E.
Qed.

(** X1: sanitizing twice is sanitizing once. *)
Theorem sanitizeFileName_idempotent :
  forall name : jsstring,
    sanitizeFileName (sanitizeFileName name) = sanitizeFileName name.
Proof.
  intros name. apply sanitizeFileName_fixes_keys, sanitizeFileName_key.
Qed.

(** ** Which directory entries are read *)

Lemma from_last_dot_none (s : jsstring) :
  from_last_dot s = None -> ~ In 46%N s.
Proof.
  induction s as [|c s IH]; simpl; [tauto|].
  destruct (from_last_dot s); [discriminate|].
  destruct (N.eqb_spec c 46); [discriminate|].
  intros _ [H|H]; [congruence | now apply IH].
Qed.

Lemma from_last_dot_sound :
  forall (s e : jsstring),
    from_last_dot s = Some e ->
    exists pre rest, s = pre ++ 46%N :: rest /\ e = 46%N :: rest /\ ~ In 46%N rest.
Proof.
  induction s as [|c s IH]; intros e; simpl; [discriminate|].
  destruct (from_last_dot s) as [e'|] eqn:F.
  - intros [= <-]. destruct (IH e' eq_refl) as (pre & rest & -> & -> & Hn).
    exists (c :: pre), rest. auto.
  - destruct (N.eqb_spec c 46) as [->|Hc]; [|discriminate].
    intros [= <-]. exists [], s. repeat split. now apply from_last_dot_none.
Qed.

Lemma from_last_dot_complete (rest : jsstring) :
  ~ In 46%N rest ->
  forall pre, from_last_dot (pre ++ 46%N :: rest) = Some (46%N :: rest).
Proof.
  intros Hn. induction pre as [|c pre IH]; simpl.
  - destruct (from_last_dot rest) as [e|] eqn:F; [|reflexivity].
    destruct (from_last_dot_sound rest e F) as (p & r & -> & _ & _).
    exfalso. apply Hn, in_or_app. right. now left.
  - now rewrite IH.
Qed.

(** X2: a directory entry is read as a log exactly when its name is a
    non-empty stem followed by ".json"; the entry ".json" itself is skipped. *)
Theorem is_json_iff_stem_and_extension :
  forall file : jsstring,
    is_json file = true <-> exists stem, stem <> [] /\ file = stem ++ lit ".json".
Proof.
  intros file. unfold is_json. rewrite str_eqb_eq. split.
  - destruct file as [|c rest]; [discriminate|]. unfold path_extname.
    destruct (str_eqb (c :: rest) (lit "..")); [discriminate|].
    destruct (from_last_dot rest) as [e|] eqn:F; [|discriminate].
    intros ->. apply from_last_dot_sound in F.
    destruct F as (pre & r & -> & E & _).
    exists (c :: pre). split; [discriminate|]. rewrite <- E. reflexivity.
  - intros (stem & Hne & ->). destruct stem as [|c pre]; [contradiction|].
    change ((c :: pre) ++ lit ".json") with (c :: (pre ++ lit ".json")).
    assert (F : from_last_dot (pre ++ lit ".json") = Some (lit ".json")).
    { apply (from_last_dot_complete (lit "json")).
      vm_compute. intuition discriminate. }
    unfold path_extname. rewrite F.
    destruct (str_eqb (c :: pre ++ lit ".json") (lit "..")) eqn:E; [|reflexivity].
    apply str_eqb_eq in E. apply (f_equal (@List.length N)) in E.
    simpl in E. rewrite length_app in E. simpl in E. lia.
Qed.

(** ** Decimal numerals *)

Lemma lit_string_of_uint (d : Decimal.uint) :
  lit (NilEmpty.string_of_uint d) = uint_units d.
Proof.
  unfold lit. induction d; simpl; try rewrite IHd; reflexivity.
Qed.

Lemma Number_toString_pos (p : positive) :
  Number_toString (Z.pos p) = uint_units (Pos.to_uint p).
Proof.
  unfold Number_toString. simpl.
  rewrite <- lit_string_of_uint. f_equal.
  unfold NilZero.string_of_uint.
  pose proof (DecimalPos.Unsigned.to_uint_nonnil p) as H.
  destruct (Pos.to_uint p); [contradiction|reflexivity..].
Qed.

Lemma Number_toString_neg (p : positive) :
  Number_toString (Z.neg p) = 45%N :: uint_units (Pos.to_uint p).
Proof.
  unfold Number_toString. simpl.
  rewrite <- lit_string_of_uint. unfold lit at 1. simpl. f_equal.
  unfold NilZero.string_of_uint.
  pose proof (DecimalPos.Unsigned.to_uint_nonnil p) as H.
  destruct (Pos.to_uint p); [contradiction|reflexivity..].
Qed.

Lemma uint_units_digits (d : Decimal.uint) : Forall (fun c => is_digit c = true) (uint_units d).
Proof. induction d; simpl; constructor; auto. Qed.

Lemma digit_cases (c : N) :
  is_digit c = true ->
  (c = 48 \/ c = 49 \/ c = 50 \/ c = 51 \/ c = 52 \/ c = 53 \/ c = 54 \/ c = 55
   \/ c = 56 \/ c = 57)%N.
Proof.
  unfold is_digit, in_range. rewrite andb_true_iff, !N.leb_le. lia.
Qed.

Ltac each_digit H :=
  apply digit_cases in H;
  repeat (destruct H as [H|H]); subst.

(** The value of a numeral, one digit at a time. *)
Lemma of_uint_step (d : Decimal.uint) :
  let v := Pos.of_uint d in
  let w := (10 ^ DecimalPos.Unsigned.usize d)%N in
  Pos.of_uint (Decimal.D0 d) = v /\
  Pos.of_uint (Decimal.D1 d) = (v + 1 * w)%N /\
  Pos.of_uint (Decimal.D2 d) = (v + 2 * w)%N /\
  Pos.of_uint (Decimal.D3 d) = (v + 3 * w)%N /\
  Pos.of_uint (Decimal.D4 d) = (v + 4 * w)%N /\
  Pos.of_uint (Decimal.D5 d) = (v + 5 * w)%N /\
  Pos.of_uint (Decimal.D6 d) = (v + 6 * w)%N /\
  Pos.of_uint (Decimal.D7 d) = (v + 7 * w)%N /\
  Pos.of_uint (Decimal.D8 d) = (v + 8 * w)%N /\
  Pos.of_uint (Decimal.D9 d) = (v + 9 * w)%N.
Proof.
  cbv zeta. rewrite !DecimalPos.Unsigned.of_uint_alt.
  unfold Decimal.rev. simpl Decimal.revapp.
  rewrite !DecimalPos.Unsigned.of_lu_revapp. simpl DecimalPos.Unsigned.of_lu.
  unfold Decimal.rev. repeat split; lia.
Qed.

Lemma parse_digits_stop (acc : Z) (rest : jsstring) :
  (forall c r, rest = c :: r -> digit_value 10 c = None) ->
  parse_digits 10 acc true rest = Some acc.
Proof.
  intros H. destruct rest as [|c r]; [reflexivity|].
  simpl. now rewrite (H c r eq_refl).
Qed.

Lemma parse_digits_units (rest : jsstring) :
  (forall c r, rest = c :: r -> digit_value 10 c = None) ->
  forall (d : Decimal.uint) (acc : Z),
    parse_digits 10 acc true (uint_units d ++ rest)
    = Some (acc * 10 ^ Z.of_N (DecimalPos.Unsigned.usize d)
            + Z.of_N (Pos.of_uint d))%Z.
Proof.
  intros Hrest.
  induction d; intros acc;
    [ simpl; rewrite (parse_digits_stop acc rest Hrest); f_equal; lia | .. ];
    destruct (of_uint_step d) as (E0 & E1 & E2 & E3 & E4 & E5 & E6 & E7 & E8 & E9);
    cbn [uint_units app];
    change (parse_digits 10 acc true (?c :: ?s))
      with (match digit_value 10 c with
            | Some x => parse_digits 10 (acc * 10 + x) true s
            | None => Some acc
            end);
    match goal with
    | |- context [digit_value 10 ?c] =>
        let v := eval vm_compute in (digit_value 10 c) in
        change (digit_value 10 c) with v
    end; cbv iota;
    rewrite IHd; f_equal;
    cbn [DecimalPos.Unsigned.usize];
    rewrite N2Z.inj_succ, Z.pow_succ_r by lia;
    first [rewrite E0|rewrite E1|rewrite E2|rewrite E3|rewrite E4
          |rewrite E5|rewrite E6|rewrite E7|rewrite E8|rewrite E9];
    rewrite ?N2Z.inj_add, ?N2Z.inj_mul, ?N2Z.inj_pow; simpl (Z.of_N _); ring.
Qed.

Lemma option_map_mul_1 (x : option Z) : option_map (Z.mul 1) x = x.
Proof. destruct x as [z|]; simpl; [f_equal; destruct z; reflexivity | reflexivity]. Qed.

(** On a string of digits [parseInt] finds no white space, no sign and no
    [0x] prefix. *)
Lemma parseInt_digits (s : jsstring) :
  Forall (fun c => is_digit c = true) s ->
  parseInt (Some s) = parse_digits 10 0 false s.
Proof.
  intros H. rewrite <- (option_map_mul_1 (parse_digits 10 0 false s)).
  destruct s as [|a [|b r]]; [reflexivity | |].
  - inversion H as [|? ? Ha _]; subst. each_digit Ha; reflexivity.
  - inversion H as [|? ? Ha H']; subst. inversion H' as [|? ? Hb _]; subst.
    each_digit Ha; try reflexivity. each_digit Hb; reflexivity.
Qed.

Lemma parseInt_minus_digits (s : jsstring) :
  Forall (fun c => is_digit c = true) s ->
  parseInt (Some (45%N :: s)) = option_map (Z.mul (-1)) (parse_digits 10 0 false s).
Proof.
  intros H.
  destruct s as [|a [|b r]]; [reflexivity | |].
  - inversion H as [|? ? Ha _]; subst. each_digit Ha; reflexivity.
  - inversion H as [|? ? Ha H']; subst. inversion H' as [|? ? Hb _]; subst.
    each_digit Ha; try reflexivity. each_digit Hb; reflexivity.
Qed.

Lemma parseInt_radix10_digits (s : jsstring) :
  Forall (fun c => is_digit c = true) s ->
  parseInt_radix10 s = parse_digits 10 0 false s.
Proof.
  intros H. rewrite <- (option_map_mul_1 (parse_digits 10 0 false s)).
  destruct s as [|a r]; [reflexivity|].
  inversion H as [|? ? Ha _]; subst. each_digit Ha; reflexivity.
Qed.

Lemma parse_numeral (d : Decimal.uint) (rest : jsstring) :
  d <> Decimal.Nil ->
  (forall c r, rest = c :: r -> digit_value 10 c = None) ->
  parse_digits 10 0 false (uint_units d ++ rest) = Some (Z.of_N (Pos.of_uint d)).
Proof.
  intros Hd Hrest.
  assert (G : forall seen, parse_digits 10 0 seen (uint_units d ++ rest)
                           = parse_digits 10 0 true (uint_units d ++ rest)).
  { intros seen. destruct d; [contradiction|..]; reflexivity. }
  rewrite G, (parse_digits_units rest Hrest d 0). f_equal; lia.
Qed.

(** Printing an integer and parsing the text gives the integer back. *)
Lemma parseInt_Number_toString (n : Z) :
  parseInt (Some (Number_toString n)) = Some n.
Proof.
  destruct n as [|p|p].
  - reflexivity.
  - rewrite Number_toString_pos, parseInt_digits by apply uint_units_digits.
    rewrite <- (app_nil_r (uint_units _)), parse_numeral.
    + now rewrite DecimalPos.Unsigned.of_to.
    + apply DecimalPos.Unsigned.to_uint_nonnil.
    + discriminate.
  - rewrite Number_toString_neg, parseInt_minus_digits by apply uint_units_digits.
    rewrite <- (app_nil_r (uint_units _)), parse_numeral.
    + now rewrite DecimalPos.Unsigned.of_to.
    + apply DecimalPos.Unsigned.to_uint_nonnil.
    + discriminate.
Qed.

Lemma Number_toString_inj (n m : Z) :
  Number_toString n = Number_toString m -> n = m.
Proof.
  intros H. apply (f_equal (fun s => parseInt (Some s))) in H.
  rewrite !parseInt_Number_toString in H. congruence.
Qed.

Lemma digit_is_key (c : N) : is_digit c = true -> is_key_unit c = true.
Proof.
  intros H. unfold is_key_unit. rewrite H. now rewrite orb_true_r.
Qed.

Lemma Number_toString_key (n : Z) :
  Forall (fun c => is_key_unit c = true) (Number_toString n).
Proof.
  destruct n as [|p|p].
  - repeat constructor.
  - rewrite Number_toString_pos.
    eapply Forall_impl; [|apply uint_units_digits]. apply digit_is_key.
  - rewrite Number_toString_neg. constructor; [reflexivity|].
    eapply Forall_impl; [|apply uint_units_digits]. apply digit_is_key.
Qed.

Lemma Number_toString_nonneg_digits (n : Z) :
  (0 <= n)%Z ->
  Number_toString n <> [] /\ Forall (fun c => is_digit c = true) (Number_toString n).
Proof.
  intros H. destruct n as [|p|p]; [| |lia].
  - split; [discriminate | repeat constructor].
  - rewrite Number_toString_pos. split; [|apply uint_units_digits].
    pose proof (DecimalPos.Unsigned.to_uint_nonnil p) as Hn.
    destruct (Pos.to_uint p); [contradiction|..]; discriminate.
Qed.

(** ** Run numbers in file names *)

Lemma take_drop_while (p : N -> bool) (s : jsstring) :
  s = take_while p s ++ drop_while p s /\
  Forall (fun c => p c = true) (take_while p s).
Proof.
  induction s as [|c s [IH1 IH2]]; simpl; [split; [reflexivity|constructor]|].
  destruct (p c) eqn:E; simpl.
  - split; [now rewrite <- IH1 | now constructor].
  - split; [reflexivity | constructor].
Qed.

Lemma take_drop_while_stop (p : N -> bool) (ds : jsstring) (c : N) (rest : jsstring) :
  Forall (fun x => p x = true) ds -> p c = false ->
  take_while p (ds ++ c :: rest) = ds /\ drop_while p (ds ++ c :: rest) = c :: rest.
Proof.
  intros H Hc. induction H as [|d ds Hd _ [IH1 IH2]]; simpl.
  - now rewrite Hc.
  - rewrite Hd. now rewrite IH1, IH2.
Qed.

Lemma run_number_at_digits (ds rest : jsstring) :
  ds <> [] -> Forall (fun c => is_digit c = true) ds ->
  run_number_at (ds ++ 45%N :: rest) = Some ds.
Proof.
  intros Hne H. unfold run_number_at.
  destruct (take_drop_while_stop is_digit ds 45%N rest H eq_refl) as [-> ->].
  destruct ds; [contradiction|reflexivity].
Qed.

Lemma run_number_at_inv (filename digits : jsstring) :
  run_number_at filename = Some digits ->
  digits <> [] /\ Forall (fun c => is_digit c = true) digits /\
  exists rest, filename = digits ++ 45%N :: rest.
Proof.
  unfold run_number_at. intros H.
  destruct (take_drop_while is_digit filename) as [E F].
  destruct (take_while is_digit filename) as [|d ds]; [discriminate|].
  destruct (drop_while is_digit filename) as [|c rest]; [discriminate|].
  destruct (N.eqb_spec c HYPHEN) as [->|Hc]; [|discriminate].
  injection H as <-. split; [discriminate|]. split; [exact F|]. now exists rest.
Qed.

Lemma parse_digits_nonneg :
  forall (ds : jsstring) (acc : Z),
    Forall (fun c => is_digit c = true) ds -> (0 <= acc)%Z ->
    exists v, parse_digits 10 acc true ds = Some v /\ (0 <= v)%Z.
Proof.
  induction ds as [|c ds IH]; intros acc H Hacc.
  - exists acc. auto.
  - inversion H as [|? ? Hc Hds]; subst.
    assert (D : exists x, digit_value 10 c = Some x /\ (0 <= x)%Z)
      by (each_digit Hc; eexists; (split; [reflexivity | lia])).
    destruct D as (x & Dx & Hx). simpl. rewrite Dx.
    apply IH; [assumption | lia].
Qed.

Lemma sanitize_after_digits (ds rest : jsstring) :
  Forall (fun c => is_digit c = true) ds ->
  sanitizeFileName (ds ++ 45%N :: rest) = ds ++ 45%N :: sanitizeFileName rest.
Proof.
  intros H. unfold sanitizeFileName, toLowerCase, remove_others, replace_slashes.
  induction H as [|d ds Hd _ IH]; [reflexivity|].
  pose proof (digit_is_key d Hd) as Hk.
  destruct (key_unit_is_safe d Hk) as (Hs & _ & Hw).
  destruct (key_unit_alnum d Hk) as (Ha & Hl).
  apply N.eqb_neq in Hs.
  simpl. rewrite Hs. simpl. rewrite Hw. simpl. rewrite Ha. simpl. rewrite Hl.
  f_equal. exact IH.
Qed.




(** ** The order of the scanned records *)

Lemma opened_flush (cur : Contract) (sc : list Contract) :
  map identity (filter is_opened (flush cur sc))
  = map identity (filter is_opened sc)
    ++ (if is_opened cur then [identity cur] else []).
Proof.
  unfold flush, push.
  destruct (Nat.ltb 0 (keys_length cur)) eqn:K.
  - rewrite filter_app, map_app. simpl.
    destruct (is_opened cur); reflexivity.
  - assert (E : is_opened cur = false).
    { unfold is_opened. apply Nat.ltb_ge in K. unfold keys_length in K.
      destruct (address cur); [simpl in K; lia | reflexivity]. }
    rewrite E. now rewrite app_nil_r.
Qed.

Lemma section_marker_is_not_start_line (line : jsstring) :
  str_eqb (trim line) (lit "##") = true -> includes line START_MARKER = false.
Proof.
  intros H. destruct (includes line START_MARKER) eqn:E; [|reflexivity].
  rewrite (start_line_is_not_section_marker line E) in H. discriminate.
Qed.

Lemma opened_step (lines : list jsstring) (st : ScanState) (line : jsstring) :
  isInDeploymentSection st = true ->
  let st' := scan_line lines st line in
  map identity (filter is_opened (flush (currentContract st') (scanned st')))
  = map identity (filter is_opened (flush (currentContract st) (scanned st)))
    ++ (if includes line START_MARKER then [identity (open_contract line)] else []).
Proof.
  intros Hin st'. destruct (includes line START_MARKER) eqn:Hs.
  - subst st'. unfold scan_line.
    rewrite (start_line_is_not_section_marker line Hs), Hin, Hs. simpl.
    now rewrite (opened_flush (open_contract line)).
  - destruct (other_line_keeps lines st line Hs) as (S & A & C).
    fold st' in S, A, C. rewrite !opened_flush, S, app_nil_r.
    unfold is_opened, identity. now rewrite A, C.
Qed.

Lemma opened_in_section (lines : list jsstring) :
  forall (todo : list jsstring) (st : ScanState),
    isInDeploymentSection st = true ->
    let st' := fold_left (scan_line lines) todo st in
    map identity (filter is_opened (flush (currentContract st') (scanned st')))
    = map identity (filter is_opened (flush (currentContract st) (scanned st)))
      ++ map (fun l => identity (open_contract l))
             (filter (fun l => includes l START_MARKER) todo).
Proof.
  induction todo as [|l todo IH]; intros st Hin; simpl.
  - now rewrite app_nil_r.
  - rewrite (IH (scan_line lines st l) (section_never_left lines st l Hin)).
    rewrite (opened_step lines st l Hin), <- app_assoc. f_equal.
    destruct (includes l START_MARKER); reflexivity.
Qed.

Lemma opened_from_outside (lines : list jsstring) :
  forall (todo : list jsstring) (st : ScanState),
    isInDeploymentSection st = false ->
    let st' := fold_left (scan_line lines) todo st in
    map identity (filter is_opened (flush (currentContract st') (scanned st')))
    = map identity (filter is_opened (flush (currentContract st) (scanned st)))
      ++ map (fun l => identity (open_contract l))
             (filter (fun l => includes l START_MARKER) (section_lines todo)).
Proof.
  induction todo as [|l todo IH]; intros st Hout; simpl.
  - now rewrite app_nil_r.
  - destruct (str_eqb (trim l) (lit "##")) eqn:M.
    + assert (E : scan_line lines st l
                  = {| currentContract := currentContract st;
                       scanned := scanned st; isInDeploymentSection := true |})
        by (unfold scan_line; now rewrite M).
      rewrite E.
      exact (opened_in_section lines todo
               {| currentContract := currentContract st;
                  scanned := scanned st; isInDeploymentSection := true |} eq_refl).
    + assert (E : scan_line lines st l = st)
        by (unfold scan_line; now rewrite M, Hout).
      rewrite E. now apply IH.
Qed.

(** X5: the records of a file that have an address are, in order, the ones
    opened by the start lines that come after the first section-marker line,
    in order, each with the address and the chain read from its start line;
    no start line is lost and none is counted twice. *)
Theorem scanned_records_follow_start_lines :
  forall content : jsstring,
    map identity (filter is_opened (scan_file content))
    = map (fun l => identity (open_contract l))
          (start_lines (split NEWLINE content)).
Proof.
  intros content. unfold scan_file, scan_lines, start_lines. cbv zeta.
  now rewrite (opened_from_outside (split NEWLINE content) _ initial_state eq_refl).
Qed.

(** ** Flushed records stay *)

Lemma scanned_grows_step (lines : list jsstring) (st : ScanState) (line : jsstring) :
  exists more, scanned (scan_line lines st line) = scanned st ++ more.
Proof.
  destruct (includes line START_MARKER) eqn:Hs.
  - unfold scan_line. rewrite Hs.
    destruct (str_eqb (trim line) (lit "##")); [exists []; simpl; now rewrite app_nil_r|].
    destruct (isInDeploymentSection st); [|exists []; now rewrite app_nil_r].
    simpl. unfold flush, push.
    destruct (Nat.ltb 0 _); [eexists; reflexivity | exists []; now rewrite app_nil_r].
  - destruct (other_line_keeps lines st line Hs) as (S & _).
    exists []. now rewrite S, app_nil_r.
Qed.

Lemma scanned_grows (lines : list jsstring) :
  forall (todo : list jsstring) (st : ScanState),
    exists more, scanned (fold_left (scan_line lines) todo st) = scanned st ++ more.
Proof.
  induction todo as [|l todo IH]; intros st; simpl.
  - exists []. now rewrite app_nil_r.
  - destruct (IH (scan_line lines st l)) as [m1 E1].
    destruct (scanned_grows_step lines st l) as [m2 E2].
    exists (m2 ++ m1). now rewrite E1, E2, app_assoc.
Qed.

(** X6: what the scanner has flushed at any point of a file is a prefix of
    the file's result: a record, once flushed, is neither changed nor
    removed by the lines that follow. *)
Theorem flushed_records_are_final :
  forall (content : jsstring) (pre post : list jsstring),
    split NEWLINE content = pre ++ post ->
    exists more,
      scan_file content
      = scanned (fold_left (scan_line (split NEWLINE content)) pre initial_state)
        ++ more.
Proof.
  intros content pre post H. unfold scan_file, scan_lines. cbv zeta.
  set (lines := split NEWLINE content).
  assert (E : fold_left (scan_line lines) lines initial_state
              = fold_left (scan_line lines) post
                  (fold_left (scan_line lines) pre initial_state)).
  { rewrite <- fold_left_app. f_equal. exact H. }
  rewrite E.
  destruct (scanned_grows lines post (fold_left (scan_line lines) pre initial_state))
    as [m Hm].
  rewrite Hm. unfold flush, push.
  destruct (Nat.ltb 0 _).
  - eexists. rewrite <- app_assoc. reflexivity.
  - now exists m.
Qed.

Lemma flushed_records_are_final_witness :
  exists more,
    scan_file Samples.log_two_statuses
    = scanned (fold_left (scan_line (split NEWLINE Samples.log_two_statuses))
                 (firstn 6 (split NEWLINE Samples.log_two_statuses)) initial_state)
      ++ more.
Proof.
  apply (flushed_records_are_final Samples.log_two_statuses
           (firstn 6 (split NEWLINE Samples.log_two_statuses))
           (skipn 6 (split NEWLINE Samples.log_two_statuses))).
  symmetry. apply firstn_skipn.
Defined.

(** ** How many records are reported *)

Lemma reported_app (g1 g2 : list DeploymentGroup) :
  reported (g1 ++ g2) = reported g1 + reported g2.
Proof.
  unfold reported. now rewrite map_app, concat_app, length_app.
Qed.

Lemma reported_spec (records : list Contract) (envs : list NetworkInfo) :
  reported (correlate_spec records envs)
  = list_sum (map (fun env => List.length (filter (chain_matches env) records)) envs).
Proof.
  induction envs as [|env envs IH]; [reflexivity|].
  rewrite correlate_spec_cons, reported_app, IH. simpl. f_equal.
  unfold correlate_spec, reported. simpl.
  destruct (filter (chain_matches env) records); simpl; [reflexivity|].
  now rewrite app_nil_r.
Qed.

(** Counting by environment or by record gives the same total. *)
Lemma count_by_record (records : list Contract) (envs : list NetworkInfo) :
  list_sum (map (fun env => List.length (filter (chain_matches env) records)) envs)
  = list_sum (map (fun c => List.length (filter (fun env => chain_matches env c) envs))
                  records).
Proof.
  induction records as [|c records IH]; simpl.
  - induction envs as [|env envs IHe]; simpl; [reflexivity | exact IHe].
  - rewrite <- IH. clear IH.
    induction envs as [|env envs IHe]; simpl; [reflexivity|].
    rewrite IHe. destruct (chain_matches env c); simpl; lia.
Qed.

Lemma one_environment_per_chain (c : Contract) (envs : list NetworkInfo) :
  NoDup (map chainId envs) ->
  List.length (filter (fun env => chain_matches env c) envs)
  = if existsb (fun env => chain_matches env c) envs then 1 else 0.
Proof.
  induction envs as [|env envs IH]; intros Hnd; [reflexivity|].
  simpl in Hnd. inversion Hnd as [|? ? Hnot Hnd']; subst.
  simpl. destruct (chain_matches env c) eqn:M; simpl.
  - rewrite (IH Hnd').
    destruct (existsb (fun env0 => chain_matches env0 c) envs) eqn:Ex; [|reflexivity].
    exfalso. apply existsb_exists in Ex. destruct Ex as (env' & Hin & M').
    apply Hnot. apply in_map_iff. exists env'. split; [|exact Hin].
    unfold chain_matches in M, M'. destruct (chain c) as [s|]; [|discriminate].
    apply str_eqb_eq in M, M'. apply Number_toString_inj. congruence.
  - exact (IH Hnd').
Qed.

(** X7: when the chain identifiers of the snapshot are pairwise distinct, the
    groups of one file hold every record of the file that matches an
    environment exactly once and no other record: the sizes of the groups
    add up to the number of matching records. *)
Theorem distinct_chains_report_each_record_once :
  forall (infra : InfrastructureInfo) (content : jsstring),
    let envs := Object_values (networks infra) in
    NoDup (map chainId envs) ->
    reported (process_file infra content [])
    = List.length
        (filter (fun c => existsb (fun env => chain_matches env c) envs)
                (scan_file content)) /\
    reported (process_file infra content []) <= List.length (scan_file content).
Proof.
  intros infra content envs Hnd.
  assert (E : reported (process_file infra content [])
              = List.length
                  (filter (fun c => existsb (fun env => chain_matches env c) envs)
                          (scan_file content))).
  { rewrite process_file_spec. simpl app. fold envs.
    rewrite reported_spec, count_by_record.
    induction (scan_file content) as [|c cs IH]; [reflexivity|].
    simpl. rewrite IH, (one_environment_per_chain c envs Hnd).
    destruct (existsb (fun env => chain_matches env c) envs); reflexivity. }
  split; [exact E|]. rewrite E. apply filter_length_le.
Qed.

Lemma distinct_chains_report_each_record_once_witness :
  reported (process_file Samples.infra1 Samples.log_two_statuses []) = 2.
Proof.
  destruct (distinct_chains_report_each_record_once Samples.infra1
              Samples.log_two_statuses) as [E _].
  - repeat constructor; simpl; intuition discriminate.
  - rewrite E. vm_compute. reflexivity.
Defined.

(** ** The persister, in full *)

(** X8: [persistDeploymentInfo] issues the removal of the scratch directory
    exactly when the parse returned, also when the report has no group, and
    before anything else; when the parse throws, nothing is removed or
    written and the same error is thrown; otherwise it throws only the fault
    of the write, so it returns normally exactly when there was nothing to
    write or the write succeeded. *)
Theorem persistDeploymentInfo_outcomes :
  forall w : World,
    let parsed := parseDeploymentLogs w (tmpBuildOutDir w) in
    let trace := fst (persistDeploymentInfo w) in
    let result := snd (persistDeploymentInfo w) in
    (In (Rm (tmpBuildOutDir w)) trace <-> exists report, parsed = inr report) /\
    (forall report, parsed = inr report ->
       exists rest, trace = Rm (tmpBuildOutDir w) :: rest /\
                    Forall (fun e => match e with Rm _ => False | _ => True end) rest) /\
    (forall e, parsed = inl e -> trace = [] /\ result = inl e) /\
    (forall report, parsed = inr report ->
       (result = inr tt <->
        deployments report = [] \/ fs_writeFile w (deploymentsFile w) = Some tt) /\
       (forall e, result = inl e -> e = FsError (deploymentsFile w))).
Proof.
  intros w parsed trace result. subst parsed trace result.
  unfold persistDeploymentInfo.
  destruct (parseDeploymentLogs w (tmpBuildOutDir w)) as [e|report]; simpl.
  - split; [|split; [|split]].
    + split; [intros [] | intros [r H]; discriminate].
    + discriminate.
    + intros e' [= <-]. auto.
    + discriminate.
  - destruct (deployments report) as [|g gs] eqn:D; simpl.
    + split; [|split; [|split]].
      * split; [intros _; now exists report | intros _; now left].
      * intros r _. exists []. split; [reflexivity | constructor].
      * discriminate.
      * intros r [= <-]. rewrite D. split; [tauto | discriminate].
    + split; [|split; [|split]].
      * split; [intros _; now exists report | intros _; now left].
      * intros r _. eexists. split; [reflexivity|]. repeat constructor.
      * discriminate.
      * intros r [= <-]. rewrite D. unfold await_fs.
        destruct (fs_writeFile w (deploymentsFile w)) as [[]|]; split.
        -- split; [intros _; now right | reflexivity].
        -- discriminate.
        -- split; [discriminate | intros [H|H]; discriminate].
        -- intros e [= <-]. reflexivity.
Qed.

(** ** Input validation *)

Lemma trim_nil_of_nil (s : jsstring) : s = [] -> trim s = [].
Proof. intros ->. reflexivity. Qed.

(** The test of a required input that holds a string. *)
Lemma required_string (s : jsstring) :
  (negb (Inputs.truthy (Inputs.VString s))
   || match trim (Inputs.to_String (Inputs.VString s)) with
      | [] => true
      | _ => false
      end)%bool
  = match trim s with [] => true | _ => false end.
Proof.
  simpl. destruct s as [|c s]; [reflexivity|]. reflexivity.
Qed.

Lemma forEach_required (inputs : Inputs.TestNetInputs) (key s : jsstring)
    (rest : list (jsstring * Inputs.Rules)) :
  Inputs.get inputs key = Inputs.VString s ->
  Inputs.forEach inputs ((key, Inputs.rule true) :: rest)
  = match trim s with
    | [] => Inputs.throw_input key (lit "is required")
    | _ => Inputs.forEach inputs rest
    end.
Proof.
  intros G. simpl. unfold Inputs.check, Inputs.rule. simpl. rewrite G.
  rewrite required_string. destruct (trim s); reflexivity.
Qed.

Lemma forEach_required_numeric (inputs : Inputs.TestNetInputs) (key s : jsstring)
    (rest : list (jsstring * Inputs.Rules)) :
  Inputs.get inputs key = Inputs.VString s ->
  Inputs.forEach inputs
    ((key, {| Inputs.required := true; Inputs.isNumeric := true;
              Inputs.isBoolean := false; Inputs.isOneOf := None |}) :: rest)
  = match trim s with
    | [] => Inputs.throw_input key (lit "is required")
    | _ => match parseInt (Some s) with
           | None => Inputs.throw_input key (lit "must be a valid number")
           | Some _ => Inputs.forEach inputs rest
           end
    end.
Proof.
  intros G. simpl. unfold Inputs.check. simpl. rewrite G.
  rewrite required_string. destruct (trim s) eqn:T; [reflexivity|].
  assert (N : Inputs.truthy (Inputs.VString s) = true)
    by (destruct s; [discriminate T | reflexivity]).
  rewrite N. simpl. destruct (parseInt (Some s)); reflexivity.
Qed.

Lemma forEach_boolean (inputs : Inputs.TestNetInputs) (key : jsstring) (b : bool)
    (rest : list (jsstring * Inputs.Rules)) :
  Inputs.get inputs key = Inputs.VBoolean b ->
  Inputs.forEach inputs
    ((key, {| Inputs.required := false; Inputs.isNumeric := false;
              Inputs.isBoolean := true; Inputs.isOneOf := None |}) :: rest)
  = Inputs.forEach inputs rest.
Proof.
  intros G. simpl. unfold Inputs.check. simpl. rewrite G. reflexivity.
Qed.

Lemma forEach_one_of (inputs : Inputs.TestNetInputs) (key s : jsstring)
    (options : list jsstring) (rest : list (jsstring * Inputs.Rules)) :
  Inputs.get inputs key = Inputs.VString s ->
  Inputs.forEach inputs
    ((key, {| Inputs.required := false; Inputs.isNumeric := false;
              Inputs.isBoolean := false; Inputs.isOneOf := Some options |}) :: rest)
  = match s with
    | [] => Inputs.forEach inputs rest
    | _ => if existsb (str_eqb s) options then Inputs.forEach inputs rest
           else Inputs.throw_input key
                  (lit "must be one of: " ++ join (lit ", ") options)
    end.
Proof.
  intros G. simpl. unfold Inputs.check. simpl. rewrite G. simpl.
  destruct s as [|c s]; [reflexivity|].
  simpl. destruct (existsb _ options); reflexivity.
Qed.

Lemma validateInputs_characterised :
  forall inputs : Inputs.TestNetInputs,
    (Inputs.validateInputs inputs = inr true <->
     trim (Inputs.accessKey inputs) <> [] /\
     trim (Inputs.projectName inputs) <> [] /\
     trim (Inputs.accountName inputs) <> [] /\
     trim (Inputs.testnetName inputs) <> [] /\
     trim (Inputs.networkId inputs) <> [] /\
     parseInt (Some (Inputs.networkId inputs)) <> None /\
     trim (Inputs.blockNumber inputs) <> [] /\
     (Inputs.verificationVisibility inputs = [] \/
      In (Inputs.verificationVisibility inputs) [lit "bytecode"; lit "abi"; lit "src"])) /\
    (forall b, Inputs.validateInputs inputs = inr b -> b = true).
Proof.
  intros inputs. unfold Inputs.validateInputs, Inputs.requiredInputs.
  rewrite (forEach_required inputs (lit "accessKey") (Inputs.accessKey inputs) _ eq_refl).
  destruct (trim (Inputs.accessKey inputs)) as [|a1 r1] eqn:T1;
    [split; [split; [discriminate | tauto] | discriminate]|].
  rewrite (forEach_required inputs (lit "projectName") (Inputs.projectName inputs) _ eq_refl).
  destruct (trim (Inputs.projectName inputs)) as [|a2 r2] eqn:T2;
    [split; [split; [discriminate | tauto] | discriminate]|].
  rewrite (forEach_required inputs (lit "accountName") (Inputs.accountName inputs) _ eq_refl).
  destruct (trim (Inputs.accountName inputs)) as [|a3 r3] eqn:T3;
    [split; [split; [discriminate | tauto] | discriminate]|].
  rewrite (forEach_required inputs (lit "testnetName") (Inputs.testnetName inputs) _ eq_refl).
  destruct (trim (Inputs.testnetName inputs)) as [|a4 r4] eqn:T4;
    [split; [split; [discriminate | tauto] | discriminate]|].
  rewrite (forEach_required_numeric inputs (lit "networkId")
             (Inputs.networkId inputs) _ eq_refl).
  destruct (trim (Inputs.networkId inputs)) as [|a5 r5] eqn:T5;
    [split; [split; [discriminate | tauto] | discriminate]|].
  destruct (parseInt (Some (Inputs.networkId inputs))) as [z|] eqn:P;
    [|split; [split; [discriminate | tauto] | discriminate]].
  rewrite (forEach_required inputs (lit "blockNumber") (Inputs.blockNumber inputs) _ eq_refl).
  destruct (trim (Inputs.blockNumber inputs)) as [|a6 r6] eqn:T6;
    [split; [split; [discriminate | tauto] | discriminate]|].
  rewrite (forEach_boolean inputs (lit "publicExplorer")
             (Inputs.publicExplorer inputs) _ eq_refl).
  rewrite (forEach_one_of inputs (lit "verificationVisibility")
             (Inputs.verificationVisibility inputs) _ _ eq_refl).
  assert (Ok : forall P : Prop, P ->
            ((inr true : Result bool) = inr true <->
             a1 :: r1 <> [] /\ a2 :: r2 <> [] /\ a3 :: r3 <> [] /\ a4 :: r4 <> [] /\
             a5 :: r5 <> [] /\ Some z <> None /\ a6 :: r6 <> [] /\ P) /\
            (forall b, (inr true : Result bool) = inr b -> b = true)).
  { intros Q HQ. split; [|intros b [= <-]; reflexivity].
    split; [intros _|reflexivity]. repeat split; try discriminate. exact HQ. }
  destruct (Inputs.verificationVisibility inputs) as [|c5 v] eqn:V.
  - simpl. apply Ok. now left.
  - destruct (existsb (str_eqb (c5 :: v)) [lit "bytecode"; lit "abi"; lit "src"]) eqn:Ex.
    + simpl. apply Ok. right.
      apply existsb_exists in Ex. destruct Ex as (o & Hin & E).
      apply str_eqb_eq in E. now rewrite E.
    + split; [|discriminate]. split; [discriminate|].
      intros (_ & _ & _ & _ & _ & _ & _ & [H|H]); [discriminate H|].
      assert (T : existsb (str_eqb (c5 :: v)) [lit "bytecode"; lit "abi"; lit "src"] = true)
        by (apply existsb_exists; eexists; split; [exact H | apply str_eqb_refl]).
      congruence.
Qed.

(** X9: [validateInputs] returns, and then returns [true], exactly when the
    six required inputs are not blank, [parseInt] of the network identifier
    is a number, and the verification visibility is empty or one of
    [bytecode], [abi], [src]; otherwise it throws. *)
Theorem validateInputs_accepts_iff :
  forall inputs : Inputs.TestNetInputs,
    (Inputs.validateInputs inputs = inr true <->
     trim (Inputs.accessKey inputs) <> [] /\
     trim (Inputs.projectName inputs) <> [] /\
     trim (Inputs.accountName inputs) <> [] /\
     trim (Inputs.testnetName inputs) <> [] /\
     trim (Inputs.networkId inputs) <> [] /\
     parseInt (Some (Inputs.networkId inputs)) <> None /\
     trim (Inputs.blockNumber inputs) <> [] /\
     (Inputs.verificationVisibility inputs = [] \/
      In (Inputs.verificationVisibility inputs) [lit "bytecode"; lit "abi"; lit "src"])) /\
    (forall b, Inputs.validateInputs inputs = inr b -> b = true).
Proof. exact validateInputs_characterised. Qed.


(** ** Slugs *)

Lemma remove_non_slug_key (s : jsstring) :
  Forall (fun c => is_key_unit c = true) (remove_non_slug s).
Proof.
  unfold remove_non_slug. apply Forall_forall. intros c Hc.
  now apply filter_In in Hc.
Qed.

(** X10: whatever the names and whatever the lower-casing does, the slug of
    a network and the unique slug of a TestNet consist of lower-case letters,
    digits and hyphens only; the unique slug is never empty; and
    [sanitizeFileName] leaves both as they are, so a slug is its own file
    key. *)
Theorem slugs_are_keys :
  forall (lower : jsstring -> jsstring) (ctx : WorkflowInfo)
         (testnetName networkId : jsstring) (now : Z),
    let slug := generateSlug lower ctx testnetName networkId in
    let unique := uniqueTestNetSlug lower now testnetName in
    Forall (fun c => is_key_unit c = true) slug /\
    Forall (fun c => is_key_unit c = true) unique /\
    unique <> [] /\
    sanitizeFileName slug = slug /\
    sanitizeFileName unique = unique.
Proof.
  intros lower ctx testnetName networkId now slug unique.
  assert (Hs : Forall (fun c => is_key_unit c = true) slug)
    by apply remove_non_slug_key.
  assert (Hu : Forall (fun c => is_key_unit c = true) unique).
  { subst unique. unfold uniqueTestNetSlug.
    apply Forall_app; split; [apply remove_non_slug_key|].
    apply Forall_app; split; [repeat constructor | apply Number_toString_key]. }
  repeat split; try assumption.
  - subst unique. unfold uniqueTestNetSlug. intros E.
    apply app_eq_nil in E. destruct E as [_ E]. discriminate E.
  - now apply sanitizeFileName_fixes_keys.
  - now apply sanitizeFileName_fixes_keys.
Qed.

(** ** Storing and reading the infra file *)



(** ** Lines *)

Lemma split_no_separator (sep : N) (x : jsstring) :
  ~ In sep x -> split sep x = [x].
Proof.
  induction x as [|c x IH]; intros H; [reflexivity|].
  simpl. destruct (N.eqb_spec c sep) as [->|Hc].
  - exfalso. apply H. now left.
  - rewrite IH; [reflexivity|]. intros Hin. apply H. now right.
Qed.

Lemma split_at_separator (sep : N) (x rest : jsstring) :
  ~ In sep x -> split sep (x ++ sep :: rest) = x :: split sep rest.
Proof.
  induction x as [|c x IH]; intros H; simpl.
  - now rewrite N.eqb_refl.
  - destruct (N.eqb_spec c sep) as [->|Hc].
    + exfalso. apply H. now left.
    + rewrite IH; [reflexivity|]. intros Hin. apply H. now right.
Qed.

(** Splitting the text of lines joined by the separator gives the lines. *)
Lemma split_join (sep : N) :
  forall xs : list jsstring,
    xs <> [] -> Forall (fun x => ~ In sep x) xs ->
    split sep (join [sep] xs) = xs.
Proof.
  induction xs as [|x xs IH]; intros Hne H; [contradiction|].
  inversion H as [|? ? Hx Hxs]; subst.
  destruct xs as [|y ys].
  - simpl. now apply split_no_separator.
  - change (join [sep] (x :: y :: ys)) with (x ++ sep :: join [sep] (y :: ys)).
    rewrite (split_at_separator sep x _ Hx), IH; [reflexivity|discriminate|exact Hxs].
Qed.

(** X12: with an infra file, [testnetLinks] returns one line per network, in
    the stored order, each holding the chain identifier, a colon and the
    admin RPC URL (when no URL holds a line feed): no network is left out or
    repeated; with no network the text is empty, and with no infra file the
    call throws a [TypeError]. *)
Theorem testnetLinks_one_line_per_network :
  forall (w : World),
    (forall infra,
       readInfraForCurrentJob w = Some infra ->
       networks infra <> [] ->
       Forall (fun m => ~ In NEWLINE (adminRpcUrl m)) (Object_values (networks infra)) ->
       exists text,
         testnetLinks w = inr text /\
         split NEWLINE text
         = map (fun m => Number_toString (chainId m) ++ lit ": " ++ adminRpcUrl m)
               (Object_values (networks infra))) /\
    (forall infra,
       readInfraForCurrentJob w = Some infra -> networks infra = [] ->
       testnetLinks w = inr []) /\
    (readInfraForCurrentJob w = None ->
     testnetLinks w = inl (JsError (lit "Cannot convert undefined or null to object"))).
Proof.
  intros w. unfold testnetLinks. split; [|split].
  - intros infra -> Hne Hurl. eexists. split; [reflexivity|].
    apply split_join.
    + unfold Object_values. destruct (networks infra); [contradiction | discriminate].
    + apply Forall_map. eapply Forall_impl; [|exact Hurl].
      intros m Hm Hin. apply in_app_or in Hin. destruct Hin as [Hin|Hin].
      * pose proof (Number_toString_key (chainId m)) as K.
        rewrite Forall_forall in K. specialize (K _ Hin). discriminate K.
      * apply in_app_or in Hin. destruct Hin as [Hin|Hin]; [|contradiction].
        vm_compute in Hin. intuition discriminate.
  - intros infra -> E. now rewrite E.
  - intros ->. reflexivity.
Qed.

Lemma testnetLinks_one_line_per_network_witness :
  exists text,
    testnetLinks (Samples.world true true) = inr text /\
    split NEWLINE text = [lit "1: https://admin/1"; lit "137: https://admin/137"].
Proof.
  destruct (proj1 (testnetLinks_one_line_per_network (Samples.world true true))
              Samples.infra1 eq_refl) as (text & H1 & H2).
  - discriminate.
  - repeat constructor; vm_compute; intuition discriminate.
  - exists text. split; [exact H1|]. rewrite H2. vm_compute. reflexivity.
Defined.

(** ** Chain identifiers as numbers and as text *)

Lemma uint_units_of_digits (ds : jsstring) :
  Forall (fun c => is_digit c = true) ds -> uint_units (units_uint ds) = ds.
Proof.
  induction 1 as [|c ds Hc _ IH]; [reflexivity|].
  each_digit Hc; simpl; now rewrite IH.
Qed.

Lemma units_uint_canonical (c : N) (ds : jsstring) :
  is_digit c = true -> c <> 48%N ->
  units_uint (c :: ds) <> Decimal.Nil /\
  Decimal.unorm (units_uint (c :: ds)) = units_uint (c :: ds).
Proof.
  intros Hc Hz. each_digit Hc; try contradiction; simpl; split;
    solve [discriminate | reflexivity].
Qed.

(** A canonical numeral prints as itself. *)
Lemma Number_toString_of_uint (d : Decimal.uint) :
  d <> Decimal.Nil -> Decimal.unorm d = d ->
  Number_toString (Z.of_N (Pos.of_uint d)) = uint_units d.
Proof.
  intros Hd Hn. unfold Number_toString.
  change (Z.of_N (Pos.of_uint d)) with (Z.of_int (Decimal.Pos d)).
  rewrite DecimalZ.to_of. simpl. rewrite Hn.
  rewrite <- lit_string_of_uint. f_equal.
  destruct d; [contradiction|reflexivity..].
Qed.

Lemma Number_toString_no_leading_zero (n : Z) (c : N) (r : jsstring) :
  Number_toString n <> 48%N :: c :: r.
Proof.
  destruct n as [|p|p].
  - discriminate.
  - rewrite Number_toString_pos. intros E.
    assert (U : Decimal.unorm (Pos.to_uint p) = Pos.to_uint p).
    { rewrite <- (DecimalPos.Unsigned.to_of (Pos.to_uint p)).
      now rewrite DecimalPos.Unsigned.of_to. }
    destruct (Pos.to_uint p) as [|d| | | | | | | | | ] eqn:T; try discriminate E.
    rewrite DecimalFacts.unorm_D0 in U. unfold Decimal.unorm in U.
    destruct (Decimal.nzhead d) eqn:Z; try discriminate U.
    + injection U as <-. simpl in E. discriminate E.
    + exact (DecimalFacts.nzhead_nonzero d _ Z).
  - rewrite Number_toString_neg. discriminate.
Qed.





(** ** Outcomes of [parseDeploymentLogs] *)

Lemma for_files_first_fault (w : World) (dir : jsstring) (infra : InfrastructureInfo)
    (f : jsstring) (post : list jsstring) :
  fs_readFile w (path_join dir f) = None ->
  forall (pre : list jsstring) (groups : list DeploymentGroup),
    Forall (fun g => fs_readFile w (path_join dir g) <> None) pre ->
    for_files w dir infra (pre ++ f :: post) groups = inl (FsError (path_join dir f)).
Proof.
  intros Hf. induction pre as [|g pre IH]; intros groups H; simpl.
  - now rewrite Hf.
  - inversion H as [|? ? Hg Hpre]; subst.
    destruct (fs_readFile w (path_join dir g)); [|contradiction].
    simpl. now apply IH.
Qed.

Lemma for_files_all_readable (w : World) (dir : jsstring) (infra : InfrastructureInfo) :
  forall (files : list jsstring) (groups : list DeploymentGroup),
    Forall (fun g => fs_readFile w (path_join dir g) <> None) files ->
    exists result, for_files w dir infra files groups = inr result.
Proof.
  induction files as [|g files IH]; intros groups H; simpl.
  - now exists groups.
  - inversion H as [|? ? Hg Hfiles]; subst.
    destruct (fs_readFile w (path_join dir g)); [|contradiction].
    simpl. now apply IH.
Qed.

(** X15: what [parseDeploymentLogs] does with the file system. A directory
    that cannot be listed makes it throw that fault. With the directory
    listed and the infra file read, it throws the fault of the first
    [.json] entry (in listing order) that cannot be read, and it returns a
    report, carrying the run's identity, as soon as every [.json] entry can
    be read: entries with another extension are never read, so an
    unreadable one does no harm. *)
Theorem parseDeploymentLogs_outcomes :
  forall (w : World) (dir : jsstring),
    (fs_readdir w dir = None -> parseDeploymentLogs w dir = inl (FsError dir)) /\
    (forall files infra,
       fs_readdir w dir = Some files ->
       readInfraForCurrentJob w = Some infra ->
       (forall pre f post,
          filter is_json files = pre ++ f :: post ->
          Forall (fun g => fs_readFile w (path_join dir g) <> None) pre ->
          fs_readFile w (path_join dir f) = None ->
          parseDeploymentLogs w dir = inl (FsError (path_join dir f))) /\
       (Forall (fun f => is_json f = true ->
                         fs_readFile w (path_join dir f) <> None) files ->
        exists report,
          parseDeploymentLogs w dir = inr report /\
          pd_workflow report = github_context w)).
Proof.
  intros w dir. unfold parseDeploymentLogs. split.
  - intros ->. reflexivity.
  - intros files infra -> ->. simpl. split.
    + intros pre f post E Hpre Hf. rewrite E.
      now rewrite (for_files_first_fault w dir infra f post Hf pre [] Hpre).
    + intros H.
      assert (R : Forall (fun g => fs_readFile w (path_join dir g) <> None)
                         (filter is_json files)).
      { apply Forall_forall. intros g Hg. apply filter_In in Hg.
        rewrite Forall_forall in H. now apply H. }
      destruct (for_files_all_readable w dir infra _ [] R) as [groups ->].
      simpl. eexists. split; reflexivity.
Qed.

Lemma parseDeploymentLogs_outcomes_witness :
  exists report,
    parseDeploymentLogs (Samples.world true true) (lit "/ws/.tenderly/tmp") = inr report /\
    pd_workflow report = Samples.ctx1.
Proof.
  destruct (parseDeploymentLogs_outcomes (Samples.world true true)
              (lit "/ws/.tenderly/tmp")) as [_ H].
  destruct (H [lit "a.json"; lit "notes.txt"; lit "b.json"] Samples.infra1
              eq_refl eq_refl) as [_ H'].
  apply H'. repeat constructor; vm_compute; discriminate.
Defined.

(** ** Instances *)


Lemma persistDeploymentInfo_outcomes_witness :
  snd (persistDeploymentInfo (Samples.world true true)) = inr tt.
Proof.
  destruct (persistDeploymentInfo_outcomes (Samples.world true true))
    as (_ & _ & _ & H).
  destruct (H {| pd_workflow := Samples.ctx1;
                 deployments :=
                   correlate_spec (scan_file Samples.log_a)
                     [Samples.net1; Samples.net137]
                   ++ correlate_spec (scan_file Samples.log_b)
                        [Samples.net1; Samples.net137] |})
    as [Hok _].
  - vm_compute. reflexivity.
  - apply Hok. right. reflexivity.
Defined.

Lemma validateInputs_accepts_iff_witness :
  Inputs.validateInputs
    {| Inputs.accessKey := lit "key"; Inputs.projectName := lit "project";
       Inputs.accountName := lit "account"; Inputs.testnetName := lit "CI TestNet";
       Inputs.networkId := lit "137"; Inputs.chainId := Some 7357137%Z;
       Inputs.blockNumber := lit "latest"; Inputs.stateSync := false;
       Inputs.publicExplorer := false; Inputs.verificationVisibility := lit "bytecode";
       Inputs.testnetSlug := None |} = inr true.
Proof.
  apply (proj1 (validateInputs_accepts_iff _)).
  simpl. repeat split; try discriminate. right. now left.
Defined.

(** ** What the scanner reads from the lines the build tool prints *)

Lemma regex_search_skip (A : Type) (attempt : jsstring -> option A) (p : N -> bool) :
  (forall c s, p c = false -> attempt (c :: s) = None) ->
  forall (pre s : jsstring),
    Forall (fun c => p c = false) pre ->
    regex_search attempt (pre ++ s) = regex_search attempt s.
Proof.
  intros Hp. induction pre as [|c pre IH]; intros s H; [reflexivity|].
  inversion H as [|? ? Hc Hpre]; subst.
  simpl. rewrite (Hp c (pre ++ s) Hc). now apply IH.
Qed.

Lemma regex_search_here (A : Type) (attempt : jsstring -> option A)
    (s : jsstring) (r : A) :
  attempt s = Some r -> regex_search attempt s = Some r.
Proof. intros H. destruct s; simpl; now rewrite H. Qed.

Lemma take_while_all (p : N -> bool) (s : jsstring) :
  Forall (fun c => p c = true) s -> take_while p s = s /\ drop_while p s = [].
Proof.
  induction 1 as [|c s Hc _ [IH1 IH2]]; [split; reflexivity|].
  simpl. rewrite Hc, IH1, IH2. split; reflexivity.
Qed.

(** A run of [p] followed by nothing or by something that is not [p]. *)
Lemma take_while_run (p : N -> bool) (run tail : jsstring) :
  Forall (fun c => p c = true) run ->
  (forall c r, tail = c :: r -> p c = false) ->
  take_while p (run ++ tail) = run /\ drop_while p (run ++ tail) = tail.
Proof.
  intros Hrun Htail. destruct tail as [|c r].
  - rewrite app_nil_r. now apply take_while_all.
  - apply take_drop_while_stop; [exact Hrun | now apply (Htail c r)].
Qed.

Lemma address_at_needs_backtick (c : N) (s : jsstring) :
  N.eqb c 96 = false -> address_at (c :: s) = None.
Proof.
  intros H. unfold address_at, strip_prefix.
  change (starts_with (lit "`0x") (c :: s))
    with (N.eqb 96 c && starts_with (lit "0x") s).
  rewrite N.eqb_sym, H. reflexivity.
Qed.

Lemma address_at_quoted (hex rest : jsstring) :
  hex <> [] -> Forall (fun c => is_hex c = true) hex ->
  address_at (lit "`0x" ++ hex ++ 96%N :: rest) = Some (lit "0x" ++ hex).
Proof.
  intros Hne Hhex. unfold address_at.
  change (strip_prefix (lit "`0x") (lit "`0x" ++ hex ++ 96%N :: rest))
    with (Some (hex ++ 96%N :: rest)).
  destruct (take_drop_while_stop is_hex hex 96%N rest Hhex eq_refl) as [-> ->].
  destruct hex; [contradiction | reflexivity].
Qed.

Lemma chain_at_needs_d (c : N) (s : jsstring) :
  N.eqb c 100 = false -> chain_at (c :: s) = None.
Proof.
  intros H. unfold chain_at, strip_prefix.
  change (starts_with (lit "deployed on ") (c :: s))
    with (N.eqb 100 c && starts_with (lit "eployed on ") s).
  rewrite N.eqb_sym, H. reflexivity.
Qed.

Lemma hex_is_not_p (c : N) : is_hex c = true -> N.eqb 112 c = false.
Proof.
  unfold is_hex, is_digit, in_range.
  rewrite !orb_true_iff, !andb_true_iff, !N.leb_le, N.eqb_neq. lia.
Qed.

(** No "deployed on" starts inside the address. *)
Lemma chain_at_inside_hex (hex rest : jsstring) :
  Forall (fun c => is_hex c = true) hex ->
  chain_at (hex ++ 96%N :: rest) = None.
Proof.
  intros H. unfold chain_at, strip_prefix.
  assert (E : starts_with (lit "deployed on ") (hex ++ 96%N :: rest) = false).
  { destruct hex as [|c1 [|c2 [|c3 hex]]].
    - reflexivity.
    - change (N.eqb 100 c1 && false = false). apply andb_false_r.
    - change (N.eqb 100 c1 && (N.eqb 101 c2 && false) = false).
      now rewrite !andb_false_r.
    - inversion H as [|? ? _ H2]; subst. inversion H2 as [|? ? _ H3]; subst.
      inversion H3 as [|? ? Hc3 _]; subst.
      change (N.eqb 100 c1 && (N.eqb 101 c2 && (N.eqb 112 c3
               && starts_with (lit "loyed on ") (hex ++ 96%N :: rest))) = false).
      rewrite (hex_is_not_p c3 Hc3). now rewrite !andb_false_r. }
  now rewrite E.
Qed.

Lemma regex_search_chain_after_hex (rest : jsstring) :
  forall hex,
    Forall (fun c => is_hex c = true) hex ->
    regex_search chain_at (hex ++ 96%N :: rest)
    = regex_search chain_at (96%N :: rest).
Proof.
  induction hex as [|c hex IH]; intros H; [reflexivity|].
  inversion H as [|? ? Hc Hhex]; subst.
  change ((c :: hex) ++ 96%N :: rest) with (c :: (hex ++ 96%N :: rest)).
  change (regex_search chain_at (c :: (hex ++ 96%N :: rest)))
    with (match chain_at ((c :: hex) ++ 96%N :: rest) with
          | Some r => Some r
          | None => regex_search chain_at (hex ++ 96%N :: rest)
          end).
  rewrite (chain_at_inside_hex (c :: hex) rest H). now apply IH.
Qed.

Lemma chain_at_digits (digits tail : jsstring) :
  digits <> [] -> Forall (fun c => is_digit c = true) digits ->
  (forall c r, tail = c :: r -> is_digit c = false) ->
  chain_at (lit "deployed on " ++ digits ++ tail) = Some digits.
Proof.
  intros Hne Hd Htail. unfold chain_at.
  change (strip_prefix (lit "deployed on ") (lit "deployed on " ++ digits ++ tail))
    with (Some (digits ++ tail)).
  destruct (take_while_run is_digit digits tail Hd Htail) as [-> _].
  destruct digits; [contradiction | reflexivity].
Qed.

(** The record a start line of the build tool opens. *)
Lemma open_contract_start_line (hex digits : jsstring) :
  hex <> [] -> Forall (fun c => is_hex c = true) hex ->
  digits <> [] -> Forall (fun c => is_digit c = true) digits ->
  open_contract (start_line hex digits)
  = {| address := Some (lit "0x" ++ hex); chain := Some digits;
       verificationStatus := Some None; compiler := None; optimizations := None;
       contractPath := None; contractName := None |}.
Proof.
  intros Hh1 Hh2 Hd1 Hd2. unfold open_contract, start_line.
  assert (A : regex_search address_at
                (lit "Start verifying contract `0x" ++ hex
                 ++ lit "` deployed on " ++ digits)
              = Some (lit "0x" ++ hex)).
  { change (lit "Start verifying contract `0x" ++ hex ++ lit "` deployed on " ++ digits)
      with (lit "Start verifying contract "
            ++ (lit "`0x" ++ hex ++ 96%N :: (lit " deployed on " ++ digits))).
    rewrite (regex_search_skip _ address_at (fun c => N.eqb c 96)
               address_at_needs_backtick)
      by (repeat constructor).
    apply regex_search_here. now apply address_at_quoted. }
  assert (C : regex_search chain_at
                (lit "Start verifying contract `0x" ++ hex
                 ++ lit "` deployed on " ++ digits)
              = Some digits).
  { change (lit "Start verifying contract `0x" ++ hex ++ lit "` deployed on " ++ digits)
      with (lit "Start verifying contract `0x"
            ++ (hex ++ 96%N :: (lit " deployed on " ++ digits))).
    rewrite (regex_search_skip _ chain_at (fun c => N.eqb c 100) chain_at_needs_d)
      by (repeat constructor).
    rewrite (regex_search_chain_after_hex _ hex Hh2).
    change (96%N :: (lit " deployed on " ++ digits))
      with (lit "` " ++ (lit "deployed on " ++ digits)).
    rewrite (regex_search_skip _ chain_at (fun c => N.eqb c 100) chain_at_needs_d)
      by (repeat constructor).
    apply regex_search_here.
    pose proof (chain_at_digits digits [] Hd1 Hd2) as D.
    rewrite app_nil_r in D. apply D. discriminate. }
  rewrite A, C.
  destruct digits; [contradiction|]. reflexivity.
Qed.

Lemma token_unit_facts (c : N) :
  is_token_unit c = true ->
  is_whitespace c = false /\ is_line_terminator c = false /\
  c <> 58%N /\ c <> 96%N /\ c <> 91%N /\ c <> 93%N /\ c <> NEWLINE.
Proof.
  unfold is_token_unit. rewrite negb_true_iff, !orb_false_iff, !N.eqb_neq.
  intros ((((W & H1) & H2) & H3) & H4). repeat split; try assumption.
  - revert W. unfold is_whitespace, is_line_terminator, in_range.
    rewrite !orb_false_iff, !andb_false_iff, !N.leb_gt, !N.eqb_neq. lia.
  - intros ->. discriminate W.
Qed.

Lemma key_unit_is_token (c : N) : is_key_unit c = true -> is_token_unit c = true.
Proof.
  intros H. destruct (key_unit_is_safe c H) as (_ & _ & W).
  unfold is_token_unit. rewrite W. simpl.
  unfold is_key_unit, is_lower, is_digit, in_range, HYPHEN in H.
  rewrite !orb_true_iff, !andb_true_iff, !N.leb_le, N.eqb_eq in H.
  rewrite negb_true_iff, !orb_false_iff, !N.eqb_neq. lia.
Qed.

Lemma drop_while_none (p : N -> bool) (s : jsstring) :
  Forall (fun c => p c = false) s -> drop_while p s = s.
Proof. intros H. destruct H as [|c s Hc _]; [reflexivity|]. simpl. now rewrite Hc. Qed.

(** Padding of white space around a text without white space is trimmed
    away. *)
Lemma trim_padded (pad t : jsstring) :
  Forall (fun c => is_whitespace c = true) pad ->
  Forall (fun c => is_whitespace c = false) t ->
  trim (pad ++ t) = t.
Proof.
  intros Hpad Ht. unfold trim.
  assert (E : drop_while is_whitespace (pad ++ t) = t).
  { apply take_while_run; [exact Hpad|].
    intros c r ->. now inversion Ht. }
  rewrite E, drop_while_none; [apply rev_involutive|].
  apply Forall_rev. exact Ht.
Qed.

Lemma no_colon_in_tokens (s : jsstring) :
  Forall (fun c => is_token_unit c = true) s -> ~ In COLON s.
Proof.
  intros H Hin. rewrite Forall_forall in H.
  destruct (token_unit_facts _ (H _ Hin)) as (_ & _ & Hc & _). now apply Hc.
Qed.

Lemma tokens_no_whitespace (s : jsstring) :
  Forall (fun c => is_token_unit c = true) s ->
  Forall (fun c => is_whitespace c = false) s.
Proof.
  apply Forall_impl. intros c Hc. now apply token_unit_facts.
Qed.

Lemma after_colon_compiler_line (version : jsstring) :
  Forall (fun c => is_token_unit c = true) version ->
  after_colon (compiler_line version) = Some version.
Proof.
  intros H. unfold after_colon, compiler_line.
  change (lit "Compiler version: " ++ version)
    with (lit "Compiler version" ++ COLON :: (lit " " ++ version)).
  rewrite split_at_separator by (vm_compute; intuition discriminate).
  rewrite split_no_separator.
  - simpl nth_error. simpl option_map. f_equal.
    apply (trim_padded (lit " ") version);
      [repeat constructor | now apply tokens_no_whitespace].
  - intros [E|Hin]; [discriminate E | now apply (no_colon_in_tokens version H)].
Qed.

Lemma after_colon_optimizations_line (runs : Z) :
  after_colon (optimizations_line runs) = Some (Number_toString runs).
Proof.
  pose proof (Number_toString_key runs) as K.
  assert (T : Forall (fun c => is_token_unit c = true) (Number_toString runs))
    by (eapply Forall_impl; [|exact K]; apply key_unit_is_token).
  unfold after_colon, optimizations_line.
  change (lit "Optimizations:    " ++ Number_toString runs)
    with (lit "Optimizations" ++ COLON :: (lit "    " ++ Number_toString runs)).
  rewrite split_at_separator by (vm_compute; intuition discriminate).
  rewrite split_no_separator.
  - simpl nth_error. simpl option_map. f_equal.
    apply (trim_padded (lit "    ") (Number_toString runs));
      [repeat constructor | now apply tokens_no_whitespace].
  - intros Hin. apply in_app_or in Hin. destruct Hin as [Hin|Hin].
    + vm_compute in Hin. intuition discriminate.
    + now apply (no_colon_in_tokens _ T).
Qed.

Lemma bracket_at_needs_bracket (c : N) (s : jsstring) :
  N.eqb c 91 = false -> bracket_at (c :: s) = None.
Proof.
  intros H. apply N.eqb_neq in H. unfold bracket_at.
  destruct c as [|p]; [reflexivity|].
  do 7 (destruct p as [p|p|]; try reflexivity). contradiction.
Qed.

Lemma lazy_until_bracket_stop (tail : jsstring) :
  forall inner,
    Forall (fun c => N.eqb c 93 = false /\ is_line_terminator c = false) inner ->
    lazy_until_bracket (inner ++ 93%N :: tail) = Some inner.
Proof.
  induction inner as [|c inner IH]; intros H; [reflexivity|].
  inversion H as [|? ? [Hb Ht] Hinner]; subst.
  simpl. rewrite Hb, Ht, (IH Hinner). reflexivity.
Qed.

Lemma bracket_of_submitting_line (path name tail : jsstring) :
  Forall (fun c => is_token_unit c = true) path ->
  Forall (fun c => is_token_unit c = true) name ->
  regex_search bracket_at (submitting_line path name tail)
  = Some (path ++ COLON :: name) /\
  split COLON (path ++ COLON :: name) = [path; name].
Proof.
  intros Hp Hn. split.
  - unfold submitting_line.
    change (lit "Submitting verification for [" ++ path ++ lit ":" ++ name
            ++ lit "]" ++ tail)
      with (lit "Submitting verification for "
            ++ (91%N :: (path ++ COLON :: (name ++ 93%N :: tail)))).
    replace (path ++ COLON :: (name ++ 93%N :: tail))
      with ((path ++ COLON :: name) ++ 93%N :: tail)
      by (rewrite <- app_assoc; reflexivity).
    + rewrite (regex_search_skip _ bracket_at (fun c => N.eqb c 91)
                 bracket_at_needs_bracket) by (repeat constructor).
      apply regex_search_here. unfold bracket_at.
      apply lazy_until_bracket_stop.
      apply Forall_app; split; [|constructor].
      * eapply Forall_impl; [|exact Hp]. intros c Hc.
        destruct (token_unit_facts c Hc) as (_ & T & _ & _ & _ & B & _).
        apply N.eqb_neq in B. auto.
      * split; reflexivity.
      * eapply Forall_impl; [|exact Hn]. intros c Hc.
        destruct (token_unit_facts c Hc) as (_ & T & _ & _ & _ & B & _).
        apply N.eqb_neq in B. auto.
  - rewrite split_at_separator by (now apply no_colon_in_tokens).
    rewrite split_no_separator by (now apply no_colon_in_tokens). reflexivity.
Qed.

Lemma greedy_until_last_backtick (post : jsstring) :
  ~ In 96%N post ->
  forall pre, greedy_until_backtick (pre ++ 96%N :: post) = Some pre.
Proof.
  intros Hpost.
  assert (E : greedy_until_backtick post = None).
  { induction post as [|c post IH]; [reflexivity|].
    simpl. rewrite IH by (intros H; apply Hpost; now right).
    destruct (N.eqb_spec c 96) as [->|_]; [|reflexivity].
    exfalso. apply Hpost. now left. }
  induction pre as [|c pre IH]; simpl.
  - now rewrite E.
  - now rewrite IH.
Qed.

Lemma response_of_response_line (status : jsstring) :
  status <> [] ->
  Forall (fun c => is_token_unit c = true) status ->
  regex_search response_at (response_line status) = Some status.
Proof.
  intros Hne H. apply regex_search_here. unfold response_at, response_line.
  change (strip_prefix (lit "Response: `") (lit "Response: `" ++ status ++ lit "`"))
    with (Some (status ++ lit "`")).
  cbv beta iota.
  assert (R : take_while (fun c => negb (is_line_terminator c)) (status ++ lit "`")
              = status ++ lit "`").
  { apply take_while_all. apply Forall_app; split; [|repeat constructor].
    eapply Forall_impl; [|exact H]. intros c Hc.
    destruct (token_unit_facts c Hc) as (_ & T & _). now rewrite T. }
  rewrite R. destruct status as [|c status]; [contradiction|].
  change ((c :: status) ++ lit "`") with (c :: (status ++ 96%N :: [])).
  cbv beta iota.
  rewrite (greedy_until_last_backtick [] (fun H => H) status). reflexivity.
Qed.

Lemma starts_with_prefix :
  forall (pat s : jsstring),
    starts_with pat s = true -> exists post, s = pat ++ post.
Proof.
  induction pat as [|p pat IH]; intros s H.
  - now exists s.
  - destruct s as [|c s]; [discriminate|].
    simpl in H. apply andb_true_iff in H. destruct H as [E H].
    apply N.eqb_eq in E. subst. destruct (IH s H) as [post ->].
    now exists post.
Qed.

Lemma includes_window (pat : jsstring) :
  forall s, includes s pat = true -> exists pre post, s = pre ++ pat ++ post.
Proof.
  induction s as [|c s IH]; intros H.
  - destruct pat; [now exists [], [] | discriminate].
  - change (includes (c :: s) pat) with (starts_with pat (c :: s) || includes s pat) in H.
    apply orb_true_iff in H. destruct H as [H|H].
    + destruct (starts_with_prefix _ _ H) as [post E]. now exists [], post.
    + destruct (IH H) as (pre & post & ->). now exists (c :: pre), post.
Qed.

Lemma includes_units (s pat : jsstring) (c : N) :
  includes s pat = true -> In c pat -> In c s.
Proof.
  intros H Hc. destruct (includes_window pat s H) as (pre & post & ->).
  apply in_or_app. right. apply in_or_app. now left.
Qed.

Lemma includes_skip (p : N) (pat : jsstring) :
  forall (pre s : jsstring),
    Forall (fun c => N.eqb p c = false) pre ->
    includes (pre ++ s) (p :: pat) = includes s (p :: pat).
Proof.
  induction pre as [|c pre IH]; intros s H; [reflexivity|].
  inversion H as [|? ? Hc Hpre]; subst.
  change (includes ((c :: pre) ++ s) (p :: pat))
    with (N.eqb p c && starts_with pat (pre ++ s) || includes (pre ++ s) (p :: pat)).
  rewrite Hc. simpl. now apply IH.
Qed.

Lemma not_section_marker (line : jsstring) (c : N) :
  In c line -> is_whitespace c = false -> c <> 35%N ->
  str_eqb (trim line) (lit "##") = false.
Proof.
  intros Hin W Hc. destruct (str_eqb (trim line) (lit "##")) eqn:E; [|reflexivity].
  apply str_eqb_eq in E.
  destruct (trim_keeps _ _ Hin) as [W'|Hin']; [congruence|].
  rewrite E in Hin'. simpl in Hin'.
  destruct Hin' as [H|[H|[]]]; symmetry in H; contradiction.
Qed.

Lemma branch_of_start_line (hex digits : jsstring) :
  branch_of (start_line hex digits) = StartLine.
Proof.
  assert (S : includes (start_line hex digits) START_MARKER = true) by reflexivity.
  unfold branch_of. now rewrite (start_line_is_not_section_marker _ S), S.
Qed.

Lemma branch_of_compiler_line (version : jsstring) :
  Forall (fun c => is_token_unit c = true) version ->
  branch_of (compiler_line version) = CompilerLine.
Proof.
  intros H. unfold branch_of.
  rewrite (not_section_marker (compiler_line version) 67%N)
    by (solve [now left | reflexivity | discriminate]).
  assert (S : includes (compiler_line version) START_MARKER = false).
  { unfold compiler_line, START_MARKER.
    change (lit "Start verifying contract") with (83%N :: lit "tart verifying contract").
    rewrite includes_skip by (repeat constructor).
    destruct (includes version _) eqn:E; [|reflexivity].
    assert (Hin : In 32%N version)
      by (apply (includes_units _ _ 32%N E); vm_compute; tauto).
    apply tokens_no_whitespace in H. rewrite Forall_forall in H.
    specialize (H _ Hin). discriminate H. }
  rewrite S. reflexivity.
Qed.

Lemma branch_of_optimizations_line (runs : Z) :
  branch_of (optimizations_line runs) = OptimizationsLine.
Proof.
  pose proof (Number_toString_key runs) as K. rewrite Forall_forall in K.
  unfold branch_of.
  rewrite (not_section_marker (optimizations_line runs) 79%N)
    by (solve [now left | reflexivity | discriminate]).
  assert (S : includes (optimizations_line runs) START_MARKER = false).
  { unfold optimizations_line, START_MARKER.
    change (lit "Start verifying contract") with (83%N :: lit "tart verifying contract").
    rewrite includes_skip by (repeat constructor).
    destruct (includes (Number_toString runs) _) eqn:E; [|reflexivity].
    apply includes_head in E. specialize (K _ E). discriminate K. }
  assert (C : includes (optimizations_line runs) COMPILER_MARKER = false).
  { unfold optimizations_line, COMPILER_MARKER.
    change (lit "Compiler version:") with (67%N :: lit "ompiler version:").
    rewrite includes_skip by (repeat constructor).
    destruct (includes (Number_toString runs) _) eqn:E; [|reflexivity].
    apply includes_head in E. specialize (K _ E). discriminate K. }
  rewrite S, C. reflexivity.
Qed.

(** The loop body inside the section, by branch. *)
Lemma scan_line_in_section (lines : list jsstring) (st : ScanState) (line : jsstring) :
  isInDeploymentSection st = true ->
  scan_line lines st line
  = match branch_of line with
    | SectionMarker => st
    | StartLine =>
        {| currentContract := open_contract line;
           scanned := flush (currentContract st) (scanned st);
           isInDeploymentSection := true |}
    | other =>
        {| currentContract :=
             match other with
             | CompilerLine =>
                 set_compiler (currentContract st)
                   (string_or (after_colon line) None (@Some _))
             | OptimizationsLine =>
                 set_optimizations (currentContract st)
                   (number_or_null (parseInt (after_colon line)))
             | SubmittingLine =>
                 match regex_search bracket_at line with
                 | Some inner =>
                     set_path_and_name (currentContract st)
                       (nth_error (split COLON inner) 0)
                       (nth_error (split COLON inner) 1)
                 | None => currentContract st
                 end
             | StatusLine =>
                 set_verificationStatus (currentContract st)
                   (lookahead_status lines line)
             | _ => currentContract st
             end;
           scanned := scanned st;
           isInDeploymentSection := true |}
    end.
Proof.
  intros Hin. unfold scan_line, branch_of. rewrite Hin.
  destruct (str_eqb (trim line) (lit "##")).
  - destruct st; simpl in *. now subst.
  - destruct (includes line START_MARKER); [reflexivity|].
    destruct (includes line COMPILER_MARKER); [reflexivity|].
    destruct (includes line OPTIMIZATIONS_MARKER); [reflexivity|].
    destruct (includes line SUBMITTING_MARKER); [reflexivity|].
    destruct (includes line STATUS_MARKER); reflexivity.
Qed.

Section PrintedLines.

Variable lines : list jsstring.
Variable st : ScanState.
Hypothesis in_section : isInDeploymentSection st = true.

Lemma scan_start_line (hex digits : jsstring) :
  hex <> [] -> Forall (fun c => is_hex c = true) hex ->
  digits <> [] -> Forall (fun c => is_digit c = true) digits ->
  scan_line lines st (start_line hex digits)
  = {| currentContract :=
         {| address := Some (lit "0x" ++ hex); chain := Some digits;
            verificationStatus := Some None; compiler := None;
            optimizations := None; contractPath := None; contractName := None |};
       scanned := flush (currentContract st) (scanned st);
       isInDeploymentSection := true |}.
Proof.
  intros H1 H2 H3 H4.
  rewrite (scan_line_in_section lines st _ in_section), branch_of_start_line.
  now rewrite open_contract_start_line.
Qed.

Lemma scan_compiler_line (version : jsstring) :
  version <> [] -> Forall (fun c => is_token_unit c = true) version ->
  scan_line lines st (compiler_line version)
  = {| currentContract := set_compiler (currentContract st) (Some version);
       scanned := scanned st; isInDeploymentSection := true |}.
Proof.
  intros Hne H.
  rewrite (scan_line_in_section lines st _ in_section), (branch_of_compiler_line _ H).
  rewrite (after_colon_compiler_line _ H).
  destruct version; [contradiction | reflexivity].
Qed.

Lemma scan_optimizations_line (runs : Z) :
  runs <> 0%Z ->
  scan_line lines st (optimizations_line runs)
  = {| currentContract := set_optimizations (currentContract st) (Some runs);
       scanned := scanned st; isInDeploymentSection := true |}.
Proof.
  intros Hne.
  rewrite (scan_line_in_section lines st _ in_section), branch_of_optimizations_line.
  rewrite after_colon_optimizations_line, parseInt_Number_toString.
  unfold number_or_null. apply Z.eqb_neq in Hne. now rewrite Hne.
Qed.

Lemma scan_submitting_line (path name tail : jsstring) :
  Forall (fun c => is_token_unit c = true) path ->
  Forall (fun c => is_token_unit c = true) name ->
  branch_of (submitting_line path name tail) = SubmittingLine ->
  scan_line lines st (submitting_line path name tail)
  = {| currentContract :=
         set_path_and_name (currentContract st) (Some path) (Some name);
       scanned := scanned st; isInDeploymentSection := true |}.
Proof.
  intros Hp Hn Hb.
  rewrite (scan_line_in_section lines st _ in_section), Hb.
  destruct (bracket_of_submitting_line path name tail Hp Hn) as [-> ->].
  reflexivity.
Qed.

Lemma scan_status_line (pre : list jsstring) (status : jsstring)
    (post : list jsstring) :
  lines = pre ++ status_line :: response_line status :: post ->
  ~ In status_line pre ->
  status <> [] -> Forall (fun c => is_token_unit c = true) status ->
  scan_line lines st status_line
  = {| currentContract := set_verificationStatus (currentContract st) (Some status);
       scanned := scanned st; isInDeploymentSection := true |}.
Proof.
  intros E Hpre Hne H.
  rewrite (scan_line_in_section _ st _ in_section).
  change (branch_of status_line) with StatusLine. cbv iota.
  rewrite E, (lookahead_at_first_occurrence pre status_line _ Hpre).
  rewrite (response_of_response_line status Hne H).
  destruct status; [contradiction | reflexivity].
Qed.

End PrintedLines.



(** ** A whole fragment *)

Lemma hex_is_token (c : N) : is_hex c = true -> is_token_unit c = true.
Proof.
  unfold is_hex, is_digit, in_range, is_token_unit, is_whitespace.
  rewrite !orb_true_iff, !andb_true_iff, !N.leb_le.
  intros H. unfold in_range.
  rewrite negb_true_iff, !orb_false_iff, !andb_false_iff, !N.leb_gt, !N.eqb_neq. lia.
Qed.

Lemma digit_is_hex (c : N) : is_digit c = true -> is_hex c = true.
Proof. intros H. unfold is_hex. now rewrite H. Qed.

Lemma tokens_no_newline (s : jsstring) :
  Forall (fun c => is_token_unit c = true) s -> ~ In NEWLINE s.
Proof.
  intros H Hin. rewrite Forall_forall in H.
  destruct (token_unit_facts _ (H _ Hin)) as (_ & _ & _ & _ & _ & _ & Hn).
  now apply Hn.
Qed.

Lemma branch_of_response_line (status : jsstring) :
  Forall (fun c => is_token_unit c = true) status ->
  branch_of (response_line status) = OtherLine.
Proof.
  intros H.
  assert (T : Forall (fun c => is_token_unit c = true) (status ++ lit "`" ++ [])
              -> False) by (intros T; apply Forall_app in T; destruct T as [_ T];
                            inversion T as [|? ? B _]; discriminate B).
  assert (No : forall m c, In c m -> (c = 32%N \/ c = 58%N) ->
                 includes (status ++ lit "`") m = false).
  { intros m c Hc Hsp. destruct (includes (status ++ lit "`") m) eqn:E; [|reflexivity].
    pose proof (includes_units _ _ c E Hc) as Hin.
    apply in_app_or in Hin. destruct Hin as [Hin|Hin].
    - rewrite Forall_forall in H.
      destruct (token_unit_facts _ (H _ Hin)) as (W & _ & C & _).
      destruct Hsp as [->| ->]; [discriminate W | contradiction].
    - simpl in Hin. destruct Hsp as [->| ->]; intuition discriminate. }
  unfold branch_of.
  rewrite (not_section_marker (response_line status) 82%N)
    by (solve [now left | reflexivity | discriminate]).
  unfold response_line, START_MARKER, COMPILER_MARKER, OPTIMIZATIONS_MARKER,
    SUBMITTING_MARKER, STATUS_MARKER.
  change (lit "Start verifying contract") with (83%N :: lit "tart verifying contract").
  change (lit "Compiler version:") with (67%N :: lit "ompiler version:").
  change (lit "Optimizations:") with (79%N :: lit "ptimizations:").
  change (lit "Submitting verification for")
    with (83%N :: lit "ubmitting verification for").
  change (lit "Contract verification status:")
    with (67%N :: lit "ontract verification status:").
  rewrite (includes_skip 83%N (lit "tart verifying contract") (lit "Response: `"))
    by (repeat constructor).
  rewrite (No (83%N :: lit "tart verifying contract") 32%N) by (vm_compute; tauto).
  rewrite (includes_skip 67%N (lit "ompiler version:") (lit "Response: `"))
    by (repeat constructor).
  rewrite (No (67%N :: lit "ompiler version:") 32%N) by (vm_compute; tauto).
  rewrite (includes_skip 79%N (lit "ptimizations:") (lit "Response: `"))
    by (repeat constructor).
  rewrite (No (79%N :: lit "ptimizations:") 58%N) by (vm_compute; tauto).
  rewrite (includes_skip 83%N (lit "ubmitting verification for") (lit "Response: `"))
    by (repeat constructor).
  rewrite (No (83%N :: lit "ubmitting verification for") 32%N) by (vm_compute; tauto).
  rewrite (includes_skip 67%N (lit "ontract verification status:") (lit "Response: `"))
    by (repeat constructor).
  rewrite (No (67%N :: lit "ontract verification status:") 32%N) by (vm_compute; tauto).
  reflexivity.
Qed.



(** ** The post step *)

Lemma no_infra_error_needs_no_infra (w : World) (dir : jsstring) :
  parseDeploymentLogs w dir = inl NO_INFRA -> readInfraForCurrentJob w = None.
Proof.
  unfold parseDeploymentLogs.
  destruct (fs_readdir w dir) as [files|]; simpl; [|discriminate].
  destruct (readInfraForCurrentJob w) as [infra|]; [|reflexivity].
  destruct (for_files w dir infra (filter is_json files) []) as [e|g] eqn:F;
    simpl; [|discriminate].
  destruct (for_files_throws_fs _ _ _ _ _ _ F) as [path ->]. discriminate.
Qed.

Lemma persist_throws_from_parse_or_write (w : World) (e : Exn) :
  snd (persistDeploymentInfo w) = inl e ->
  parseDeploymentLogs w (tmpBuildOutDir w) = inl e \/ e = FsError (deploymentsFile w).
Proof.
  unfold persistDeploymentInfo.
  destruct (parseDeploymentLogs w (tmpBuildOutDir w)) as [e'|report]; simpl.
  - intros [= <-]. now left.
  - destruct (Nat.ltb 0 (List.length (deployments report))); simpl; [|discriminate].
    unfold await_fs. destruct (fs_writeFile w (deploymentsFile w)); [discriminate|].
    intros [= <-]. now right.
Qed.

(** X18: the post step as a whole. Without an infra file it only warns:
    nothing is parsed, persisted, pushed or paused. With one, deployment
    info is persisted only in mode CD, and that step cannot fail with the
    missing-infrastructure error, since the infra file was just read (the
    file system being the same at both reads); the
    push is attempted only after the persist step returned normally; the
    TestNets are paused only in mode CI; and in any other mode nothing is
    done at all. *)
Theorem cleanup_steps :
  forall (mode : jsstring) (push : Result unit) (w : World),
    let events := cleanup mode push w in
    (readInfraForCurrentJob w = None ->
     events = [ClearSensitiveData;
               Warned (lit "No infrastructure information found to cleanup")]) /\
    (forall trace, In (Persisted trace) events ->
       mode = lit "CD" /\ trace = fst (persistDeploymentInfo w) /\
       snd (persistDeploymentInfo w) <> inl NO_INFRA) /\
    (In Pushed events -> mode = lit "CD" /\ snd (persistDeploymentInfo w) = inr tt) /\
    (forall infra, In (Paused infra) events ->
       mode = lit "CI" /\ readInfraForCurrentJob w = Some infra) /\
    (readInfraForCurrentJob w <> None -> mode <> lit "CD" -> mode <> lit "CI" ->
     events = [ClearSensitiveData]).
Proof.
  intros mode push w events. subst events. unfold cleanup, cleanup_body.
  destruct (readInfraForCurrentJob w) as [infra|] eqn:R.
  - assert (NoInfra : snd (persistDeploymentInfo w) <> inl NO_INFRA).
    { intros H. destruct (persist_throws_from_parse_or_write w _ H) as [P|P].
      - apply no_infra_error_needs_no_infra in P. congruence.
      - discriminate P. }
    destruct (str_eqb mode (lit "CD")) eqn:CD.
    + apply str_eqb_eq in CD. subst mode. change (str_eqb (lit "CD") (lit "CI")) with false.
      destruct (persistDeploymentInfo w) as [trace persisted] eqn:P. simpl in NoInfra.
      destruct persisted as [e|[]]; [|destruct push as [e|[]]]; simpl;
        (split; [discriminate|]); (split; [|split; [|split]]).
      * intros t [H|[H|[H|[H|[]]]]]; try discriminate H. injection H as <-. auto.
      * intros [H|[H|[H|[H|[]]]]]; discriminate H.
      * intros i [H|[H|[H|[H|[]]]]]; discriminate H.
      * intros _ H. now contradiction H.
      * intros t [H|[H|[H|[H|[H|[]]]]]]; try discriminate H. injection H as <-. auto.
      * intros _. auto.
      * intros i [H|[H|[H|[H|[H|[]]]]]]; discriminate H.
      * intros _ H. now contradiction H.
      * intros t [H|[H|[H|[H|[H|[]]]]]]; try discriminate H. injection H as <-. auto.
      * intros _. auto.
      * intros i [H|[H|[H|[H|[H|[]]]]]]; discriminate H.
      * intros _ H. now contradiction H.
    + assert (NotCD : mode <> lit "CD")
        by (intros E; rewrite E in CD; discriminate CD).
      destruct (str_eqb mode (lit "CI")) eqn:CI; simpl;
        (split; [discriminate|]); (split; [|split; [|split]]).
      * intros t [H|[H|[]]]; discriminate H.
      * intros [H|[H|[]]]; discriminate H.
      * intros i [H|[H|[]]]; try discriminate H. injection H as <-.
        apply str_eqb_eq in CI. auto.
      * intros _ _ H. apply str_eqb_eq in CI. contradiction.
      * intros t [H|[]]; discriminate H.
      * intros [H|[]]; discriminate H.
      * intros i [H|[]]; discriminate H.
      * reflexivity.
  - simpl. split; [reflexivity|]. split; [|split; [|split]].
    + intros t [H|[H|[]]]; discriminate H.
    + intros [H|[H|[]]]; discriminate H.
    + intros i [H|[H|[]]]; discriminate H.
    + intros H. now contradiction H.
Qed.

Lemma cleanup_steps_witness :
  cleanup (lit "CD") (inr tt) (Samples.world true false)
  = [ClearSensitiveData;
     Warned (lit "No infrastructure information found to cleanup")].
Proof.
  apply (proj1 (cleanup_steps (lit "CD") (inr tt) (Samples.world true false))).
  reflexivity.
Defined.

(** ** Creating a TestNet *)

Lemma find_rpc_first (wanted : jsstring) :
  forall (rpcs : list Tenderly.RpcEndpoint) (rpc : Tenderly.RpcEndpoint),
    Tenderly.find_rpc wanted rpcs = Some rpc <->
    exists before after,
      rpcs = before ++ rpc :: after /\ Tenderly.name rpc = wanted /\
      Forall (fun r => Tenderly.name r <> wanted) before.
Proof.
  induction rpcs as [|r rpcs IH]; intros rpc; simpl.
  - split; [discriminate|]. intros (b & a & E & _). now destruct b.
  - destruct (str_eqb (Tenderly.name r) wanted) eqn:E.
    + apply str_eqb_eq in E. split.
      * intros [= <-]. exists [], rpcs. auto.
      * intros (b & a & Eq & Hn & Hb). destruct b as [|x b]; simpl in Eq.
        -- now injection Eq as ->.
        -- injection Eq as -> _. inversion Hb. contradiction.
    + assert (Ne : Tenderly.name r <> wanted)
        by (intros H; apply str_eqb_eq in H; congruence).
      rewrite IH. split.
      * intros (b & a & -> & Hn & Hb). exists (r :: b), a. auto.
      * intros (b & a & Eq & Hn & Hb). destruct b as [|x b]; simpl in Eq.
        -- injection Eq as -> _. contradiction.
        -- injection Eq as -> ->. inversion Hb. exists b, a. auto.
Qed.

